(** * AnkiRest: the SM-2 scheduler, the collection model and the archive exporter

    A shallow embedding of the Python sources

      - [archive/review_anki_schema.py]   (class [AnkiSM2]: scheduler, due query,
                                           [add_card], [calculate_checksum],
                                           [run_review_session])
      - [archive/review_and_export_v2.py] (class [AnkiSM2]: the same scheduler,
                                           [add_model], [add_deck],
                                           [searchModelId], [searchDeckId],
                                           [export_to_apkg])
      - [archive/anki-flashcard-app.py]   (class [AnkiFlashcardApp]: [add_model],
                                           [add_deck], [add_note], [_checksum],
                                           [export_apkg])
      - [basketball_flashcards_server.py] ([calculate_next_review],
                                           [process_review])

    Python [int] is [Z]; Python [float] is IEEE-754 binary64, taken from the
    specification of floating-point arithmetic of the standard library
    ([SpecFloat], precision 53, round to nearest even); exceptions are an
    error result; the SQLite tables are lists of rows; wall-clock and random
    readings are inputs. *)

From Stdlib Require Import ZArith List String Ascii Bool Lia Permutation.
From Stdlib Require Import SpecFloat DecimalString DecimalZ DecimalPos.
Import ListNotations.

Local Open Scope string_scope.
Local Open Scope Z_scope.

(* ================================================================== *)
(** ** Exceptions *)

Inductive exn : Type :=
| ValueError
| OverflowError
| IntegrityError.

Inductive result (A : Type) : Type :=
| Ok (a : A)
| Raise (e : exn).

Arguments Ok {A} a.
Arguments Raise {A} e.

Definition bind {A B : Type} (r : result A) (k : A -> result B) : result B :=
  match r with
  | Ok a => k a
  | Raise e => Raise e
  end.

Notation "'let*' x ':=' r 'in' k" := (bind r (fun x => k))
  (at level 10, x name, r at level 100, k at level 200).

(* ================================================================== *)
(** ** Python floats: IEEE-754 binary64 *)

Module Py.

Definition prec : Z := 53.
Definition emax : Z := 1024.

Definition float : Type := spec_float.

Definition fadd : float -> float -> float := SFadd prec emax.
Definition fsub : float -> float -> float := SFsub prec emax.
Definition fmul : float -> float -> float := SFmul prec emax.
Definition fdiv : float -> float -> float := SFdiv prec emax.

(** [a > b] on floats; false when either side is a NaN. *)
Definition fgt (a b : float) : bool := SFltb b a.

(** The binary64 nearest to an integer (ties to even). *)
Definition float_of_Z (z : Z) : float := binary_normalize prec emax z 0 false.

(** The implicit conversion of an [int] operand in mixed arithmetic; an
    integer beyond the binary64 range raises [OverflowError]. *)
Definition to_float (z : Z) : result float :=
  match float_of_Z z with
  | S754_infinity _ => Raise OverflowError
  | f => Ok f
  end.

(** A decimal literal [n/d] of the source text: the nearest binary64. *)
Definition literal (n d : Z) : float := fdiv (float_of_Z n) (float_of_Z d).

Definition f1_3 : float := literal 13 10.
Definition f0_2 : float := literal 2 10.
Definition f0_1 : float := literal 1 10.
Definition f0_08 : float := literal 8 100.
Definition f0_02 : float := literal 2 100.
Definition f1000 : float := literal 1000 1.

(** [int(x)]: truncation toward zero. *)
Definition int (x : float) : result Z :=
  match x with
  | S754_zero _ => Ok 0
  | S754_finite s m e => Ok (cond_Zopp s (Z.shiftl (Zpos m) e))
  | S754_infinity _ => Raise OverflowError
  | S754_nan => Raise ValueError
  end.

(** [round(x)] with one argument: the nearest integer, ties to even. *)
Definition round (x : float) : result Z :=
  match x with
  | S754_zero _ => Ok 0
  | S754_finite s m e =>
      if 0 <=? e then Ok (cond_Zopp s (Z.shiftl (Zpos m) e))
      else
        let q := Z.shiftr (Zpos m) (- e) in
        let r := Zpos m - Z.shiftl q (- e) in
        let up := match 2 * r ?= Z.shiftl 1 (- e) with
                  | Lt => false
                  | Eq => Z.odd q
                  | Gt => true
                  end in
        Ok (cond_Zopp s (if up then q + 1 else q))
  | S754_infinity _ => Raise OverflowError
  | S754_nan => Raise ValueError
  end.

(** [max(a, b)] on two arguments keeps [a] unless [b > a]. *)
Definition max (a b : float) : float := if fgt b a then b else a.

(** [str(n)] of an integer. *)
Definition str (n : Z) : string := NilZero.string_of_int (Z.to_int n).

End Py.

(* ================================================================== *)
(** ** Strings and dictionaries *)

Module Str.

(** [s.split(c)] for a one-character separator. *)
Fixpoint split (c : ascii) (s : string) : list string :=
  match s with
  | EmptyString => [EmptyString]
  | String a s' =>
      if Ascii.eqb a c then EmptyString :: split c s'
      else match split c s' with
           | p :: ps => String a p :: ps
           | [] => [String a EmptyString]
           end
  end.

(** [needle in hay] on strings. *)
Fixpoint contains (needle hay : string) : bool :=
  if prefix needle hay then true
  else match hay with
       | EmptyString => false
       | String _ hay' => contains needle hay'
       end.

End Str.

(** The field separator of a note's field blob, ["\x1f"]. *)
Definition sep : ascii := "031"%char.

(** A [dict] with string keys, in insertion order. *)
Definition dict (V : Type) : Type := list (string * V).

Definition dict_get {V : Type} (k : string) (d : dict V) : option V :=
  option_map snd (find (fun kv => String.eqb (fst kv) k) d).

(** [d[k] = v]: an existing key keeps its place and takes the new value. *)
Fixpoint dict_set {V : Type} (k : string) (v : V) (d : dict V) : dict V :=
  match d with
  | [] => [(k, v)]
  | (k', v') :: d' =>
      if String.eqb k' k then (k, v) :: d' else (k', v') :: dict_set k v d'
  end.

Definition dict_keys {V : Type} (d : dict V) : list string := map fst d.

(** [enumerate(l)]. *)
Fixpoint enumerate_from {A : Type} (i : Z) (l : list A) : list (Z * A) :=
  match l with
  | [] => []
  | x :: l' => (i, x) :: enumerate_from (i + 1) l'
  end.

Definition enumerate {A : Type} (l : list A) : list (Z * A) := enumerate_from 0 l.

(* ================================================================== *)
(** ** The database: the tables of [create_tables] *)

(** A row of [cards]. *)
Record card : Type := {
  c_id : Z;  c_nid : Z;  c_did : Z;  c_ord : Z;  c_mod : Z;  c_usn : Z;
  c_type : Z;  c_queue : Z;  c_due : Z;  c_ivl : Z;  c_factor : Z;
  c_reps : Z;  c_lapses : Z;  c_left : Z;
  c_odue : Z;  c_odid : Z;  c_flags : Z;  c_data : string
}.

(** A row of [notes]. *)
Record note : Type := {
  n_id : Z;  n_guid : string;  n_mid : Z;  n_mod : Z;  n_usn : Z;
  n_tags : string;  n_flds : string;  n_sfld : string;  n_csum : Z;
  n_flags : Z;  n_data : string
}.

(** A row of [revlog]. *)
Record revlog_entry : Type := {
  r_id : Z;  r_cid : Z;  r_usn : Z;  r_ease : Z;  r_ivl : Z;  r_lastIvl : Z;
  r_factor : Z;  r_time : Z;  r_type : Z
}.

(** The entries of a model document (the attributes that [add_model] fills
    with fixed defaults are left out). *)
Record field_def : Type := { fld_name : string;  fld_ord : Z }.

Record template_def : Type := {
  t_name : string;  t_ord : Z;  t_qfmt : string;  t_afmt : string
}.

Record model : Type := {
  m_id : Z;  m_name : string;  m_mod : Z;
  m_tmpls : list template_def;  m_flds : list field_def;
  m_req : list (Z * list Z)
}.

Record deck : Type := { d_id : Z;  d_name : string;  d_mod : Z }.

(** The single row of [col]; [models] and [decks] hold JSON objects, kept
    here as the dictionaries that [json.loads] returns. *)
Record col_row : Type := {
  col_crt : Z;  col_mod : Z;  col_scm : Z;  col_ver : Z;
  col_conf : string;  col_models : dict model;  col_decks : dict deck;
  col_dconf : string;  col_tags : string
}.

(** A row [id, data, filename] of an optional [media] table. *)
Record media_row : Type := {
  md_id : Z;  md_data : string;  md_filename : string
}.

Record db : Type := {
  db_col : col_row;
  db_notes : list note;
  db_cards : list card;
  db_revlog : list revlog_entry;
  db_media : option (list media_row)
}.

Definition set_cards (d : db) (cs : list card) : db :=
  {| db_col := db_col d;  db_notes := db_notes d;  db_cards := cs;
     db_revlog := db_revlog d;  db_media := db_media d |}.

Definition set_revlog (d : db) (rs : list revlog_entry) : db :=
  {| db_col := db_col d;  db_notes := db_notes d;  db_cards := db_cards d;
     db_revlog := rs;  db_media := db_media d |}.

Definition set_col (d : db) (c : col_row) : db :=
  {| db_col := c;  db_notes := db_notes d;  db_cards := db_cards d;
     db_revlog := db_revlog d;  db_media := db_media d |}.

(** [SELECT ... FROM cards WHERE id = ?] followed by [fetchone()]. *)
Definition select_card (cid : Z) (cs : list card) : option card :=
  find (fun c => c_id c =? cid) cs.

(* ================================================================== *)
(** ** The scheduler: [AnkiSM2.apply_sm2_algorithm] *)

(** The readings of the environment during one invocation:
    [int(time.time())], [days_since_epoch(datetime.now())],
    [int(time.time() * 1000)] and [random.randint(3000, 15000)]. *)
Record clock : Type := {
  current_time : Z;
  today : Z;
  review_id : Z;
  time_spent : Z
}.

(** The values computed between the [SELECT] and the [UPDATE]. *)
Record schedule : Type := {
  new_type : Z;  new_queue : Z;  due : Z;  new_interval : Z;
  new_factor : Z;  reps : Z;  lapses : Z;  left : Z
}.

(** [ease_factor + (0.1 - (5 - quality) * (0.08 + (5 - quality) * 0.02))] *)
Definition pass_ease (ease_factor : Py.float) (quality : Z) : result Py.float :=
  let* d := Py.to_float (5 - quality) in
  Ok (Py.fadd ease_factor
        (Py.fsub Py.f0_1 (Py.fmul d (Py.fadd Py.f0_08 (Py.fmul d Py.f0_02))))).

(** [int(new_ease_factor * 1000)] *)
Definition thousandths (new_ease_factor : Py.float) : result Z :=
  let* k := Py.to_float 1000 in
  Py.int (Py.fmul new_ease_factor k).

Definition sm2 (clk : clock) (c : card) (quality : Z) : result schedule :=
  let interval := c_ivl c in
  let* factor := Py.to_float (c_factor c) in
  let ease_factor := Py.fdiv factor Py.f1000 in
  if quality <? 3 then
    let new_interval := 1 in
    let new_ease_factor := Py.max Py.f1_3 (Py.fsub ease_factor Py.f0_2) in
    let* stored := thousandths new_ease_factor in
    Ok {| new_type := 1;  new_queue := 1;
          due := current_time clk + new_interval * 60;
          new_interval := new_interval;  new_factor := stored;
          reps := c_reps c;  lapses := c_lapses c + 1;  left := 3 |}
  else
    let* e := pass_ease ease_factor quality in
    let new_ease_factor := Py.max Py.f1_3 e in
    let* new_interval :=
      if interval =? 0 then Ok 1
      else if interval =? 1 then Ok 6
      else let* i := Py.to_float interval in
           Py.int (Py.fmul i new_ease_factor) in
    let* stored := thousandths new_ease_factor in
    Ok {| new_type := 2;  new_queue := 2;
          due := today clk + new_interval;
          new_interval := new_interval;  new_factor := stored;
          reps := c_reps c + 1;  lapses := c_lapses c;  left := 0 |}.

(** [UPDATE cards SET type, queue, due, ivl, factor, reps, lapses, left, mod
    WHERE id = ?] on one row. *)
Definition update_card (clk : clock) (s : schedule) (c : card) : card :=
  {| c_id := c_id c;  c_nid := c_nid c;  c_did := c_did c;  c_ord := c_ord c;
     c_mod := current_time clk;  c_usn := c_usn c;
     c_type := new_type s;  c_queue := new_queue s;  c_due := due s;
     c_ivl := new_interval s;  c_factor := new_factor s;
     c_reps := reps s;  c_lapses := lapses s;  c_left := left s;
     c_odue := c_odue c;  c_odid := c_odid c;  c_flags := c_flags c;
     c_data := c_data c |}.

Definition update_cards (clk : clock) (s : schedule) (cid : Z)
    (cs : list card) : list card :=
  map (fun c => if c_id c =? cid then update_card clk s c else c) cs.

(** The row of the [INSERT INTO revlog]. *)
Definition log_entry (clk : clock) (cid quality interval : Z) (s : schedule)
    : revlog_entry :=
  {| r_id := review_id clk;  r_cid := cid;  r_usn := -1;
     r_ease := quality + 1;
     r_ivl := new_interval s;  r_lastIvl := interval;
     r_factor := new_factor s;
     r_time := time_spent clk;
     r_type := if quality <? 3 then 0 else 1 |}.

(** [revlog.id] is the table's [INTEGER PRIMARY KEY]: a second row with the
    same id is refused. *)
Definition insert_revlog (e : revlog_entry) (rs : list revlog_entry)
    : result (list revlog_entry) :=
  if existsb (fun r => r_id r =? r_id e) rs then Raise IntegrityError
  else Ok (rs ++ [e])%list.

(** [date_from_days]: [datetime(1970, 1, 1) + timedelta(days=days)], defined
    from 0001-01-01 to 9999-12-31. *)
Definition date_from_days (days : Z) : result Z :=
  if (-719162 <=? days) && (days <=? 2932896) then Ok days
  else Raise OverflowError.

(** What the returned text reports. *)
Inductive next_review : Type :=
| InMinutes (minutes : Z)
| OnDate (days : Z).

(** One invocation: the outcome, and the database as the connection sees it
    afterwards (nothing is rolled back when an exception leaves the method). *)
Definition apply_sm2_algorithm (clk : clock) (d : db) (card_id quality : Z)
    : result next_review * db :=
  if (quality <? 0) || (quality >? 5) then (Raise ValueError, d)
  else
    match select_card card_id (db_cards d) with
    | None => (Raise ValueError, d)
    | Some c =>
        match sm2 clk c quality with
        | Raise e => (Raise e, d)
        | Ok s =>
            let d1 := set_cards d (update_cards clk s card_id (db_cards d)) in
            match insert_revlog (log_entry clk card_id quality (c_ivl c) s)
                    (db_revlog d1) with
            | Raise e => (Raise e, d1)
            | Ok rs =>
                let d2 := set_revlog d1 rs in
                if new_queue s =? 1 then (Ok (InMinutes (new_interval s)), d2)
                else
                  match date_from_days (due s) with
                  | Raise e => (Raise e, d2)
                  | Ok days => (Ok (OnDate days), d2)
                  end
            end
        end
    end.

(** [calculate_next_review] of the HTTP server: the card is a row with the
    columns [ease_factor REAL], [interval] and [repetitions]. *)
Record plain_card : Type := {
  pc_ease_factor : Py.float;  pc_interval : Z;  pc_repetitions : Z
}.

Definition calculate_next_review (pc : plain_card) (difficulty : Z)
    : result (Z * Py.float) :=
  if difficulty <? 3 then
    Ok (1, Py.max Py.f1_3 (Py.fsub (pc_ease_factor pc) Py.f0_2))
  else
    let* interval :=
      if pc_repetitions pc =? 0 then Ok 1
      else if pc_repetitions pc =? 1 then Ok 6
      else let* i := Py.to_float (pc_interval pc) in
           Py.round (Py.fmul i (pc_ease_factor pc)) in
    let* e := pass_ease (pc_ease_factor pc) difficulty in
    Ok (interval, Py.max Py.f1_3 e).

(* ================================================================== *)
(** ** The due-card query: [AnkiSM2.get_cards_due_today] *)

(** [SELECT c.id, n.flds FROM cards c JOIN notes n ON c.nid = n.id
     WHERE (c.queue = 0) OR (c.queue = 2 AND c.due <= ?)] *)
Definition card_is_due (as_of : Z) (c : card) : bool :=
  (c_queue c =? 0) || ((c_queue c =? 2) && (c_due c <=? as_of)).

Definition select_due (as_of : Z) (d : db) : list (Z * string) :=
  flat_map
    (fun c =>
       if card_is_due as_of c then
         map (fun n => (c_id c, n_flds n))
             (filter (fun n => c_nid c =? n_id n) (db_notes d))
       else [])
    (db_cards d).

Record due_card : Type := {
  dc_id : Z;  dc_question : string;  dc_answer : string
}.

Definition get_cards_due_today (as_of : Z) (d : db) : list due_card :=
  flat_map
    (fun row =>
       let parts := Str.split sep (snd row) in
       if 2 <=? Z.of_nat (List.length parts) then
         [ {| dc_id := fst row;
              dc_question := nth 0 parts "";
              dc_answer := nth 1 parts "" |} ]
       else [])
    (select_due as_of d).

(* ================================================================== *)
(** ** The collection model: [add_model] *)

(** One entry of the [templates] argument. *)
Record template_in : Type := {
  in_name : string;  in_qfmt : string;  in_afmt : string
}.

(** The readings of [time.time()] during [add_model]: for the id (in
    milliseconds), for the model's [mod] and for the collection's [mod]. *)
Record model_clock : Type := {
  id_time_ms : Z;
  mod_time : Z;
  col_mod_time : Z
}.

Definition fields_required (fields : list string) (t : template_in) : list Z :=
  flat_map
    (fun jf =>
       let ref := ("{{" ++ snd jf ++ "}}")%string in
       if Str.contains ref (in_qfmt t) || Str.contains ref (in_afmt t)
       then [fst jf]
       else [])
    (enumerate fields).

Definition new_model (clk : model_clock) (name : string)
    (fields : list string) (templates : list template_in) : model :=
  {| m_id := id_time_ms clk;
     m_name := name;
     m_mod := mod_time clk;
     m_tmpls :=
       map (fun it => {| t_name := in_name (snd it);  t_ord := fst it;
                         t_qfmt := in_qfmt (snd it);
                         t_afmt := in_afmt (snd it) |})
           (enumerate templates);
     m_flds :=
       map (fun jf => {| fld_name := snd jf;  fld_ord := fst jf |})
           (enumerate fields);
     m_req :=
       map (fun it => (fst it, fields_required fields (snd it)))
           (enumerate templates) |}.

Definition add_model (clk : model_clock) (d : db) (name : string)
    (fields : list string) (templates : list template_in) : Z * db :=
  let models := col_models (db_col d) in
  let model_id := id_time_ms clk in
  let models' :=
    dict_set (Py.str model_id) (new_model clk name fields templates) models in
  let c := db_col d in
  (model_id,
   set_col d
     {| col_crt := col_crt c;  col_mod := col_mod_time clk;
        col_scm := col_scm c;  col_ver := col_ver c;
        col_conf := col_conf c;  col_models := models';
        col_decks := col_decks c;  col_dconf := col_dconf c;
        col_tags := col_tags c |}).

(* ================================================================== *)
(** ** The archive exporters *)

(** What a staged file or an archive entry holds. *)
Inductive content : Type :=
| Collection (d : db)
| Manifest (m : dict string)
| Blob (data : string).

(** The staging directory: file name to content; the archive: the entries
    in the order of the [write] calls. *)
Definition directory : Type := dict content.
Definition archive : Type := list (string * content).

Inductive io_result (A : Type) : Type :=
| Done (a : A)
| FileNotFound (path : string).

Arguments Done {A} a.
Arguments FileNotFound {A} path.

(** [zip.write(path, arcname)] *)
Definition zip_write (dir : directory) (path arcname : string)
    (z : archive) : io_result archive :=
  match dict_get path dir with
  | Some c => Done (z ++ [(arcname, c)])%list
  | None => FileNotFound path
  end.

Fixpoint zip_write_all (dir : directory) (names : list string)
    (z : archive) : io_result archive :=
  match names with
  | [] => Done z
  | n :: names' =>
      match zip_write dir n n z with
      | Done z' => zip_write_all dir names' z'
      | FileNotFound p => FileNotFound p
      end
  end.

(** [AnkiFlashcardApp.export_apkg]: [media_files] are the pairs
    [(filename, data)] collected by [add_media]. *)
Definition media_manifest (media_files : list (string * string)) : dict string :=
  fold_left (fun m ifd => dict_set (Py.str (fst ifd)) (fst (snd ifd)) m)
            (enumerate media_files) [].

Definition stage_media (media_files : list (string * string))
    (dir : directory) : directory :=
  fold_left (fun dr ifd => dict_set (Py.str (fst ifd)) (Blob (snd (snd ifd))) dr)
            (enumerate media_files) dir.

Definition export_apkg (media_files : list (string * string)) (d : db)
    : io_result archive :=
  let dir := dict_set "collection.anki2" (Collection d) [] in
  let dir := dict_set "media" (Manifest (media_manifest media_files)) dir in
  let dir := stage_media media_files dir in
  match zip_write dir "collection.anki2" "collection.anki2" [] with
  | FileNotFound p => FileNotFound p
  | Done z =>
      match zip_write dir "media" "media" z with
      | FileNotFound p => FileNotFound p
      | Done z =>
          zip_write_all dir (map (fun ifd => Py.str (fst ifd))
                                 (enumerate media_files)) z
      end
  end.

(** [AnkiSM2.export_to_apkg]: the media come from the rows of a [media]
    table, when the database has one; [listdir] is [os.listdir]. *)
Definition truthy (s : string) : bool := negb (String.eqb s "").

Definition extract_media (rows : list media_row) (dir : directory)
    (media_dict : dict string) : directory * dict string :=
  fold_left
    (fun st r =>
       if truthy (md_data r) && truthy (md_filename r) then
         (dict_set (Py.str (md_id r)) (Blob (md_data r)) (fst st),
          dict_set (Py.str (md_id r)) (md_filename r) (snd st))
       else st)
    rows (dir, media_dict).

Definition export_to_apkg (listdir : directory -> list string) (d : db)
    : io_result archive :=
  let dir := dict_set "collection.anki2" (Collection d) [] in
  let dir := dict_set "media" (Manifest []) dir in
  let '(dir, media_dict) :=
    match db_media d with
    | Some rows => extract_media rows dir []
    | None => (dir, [])
    end in
  let dir := dict_set "media" (Manifest media_dict) dir in
  match zip_write dir "collection.anki2" "collection.anki2" [] with
  | FileNotFound p => FileNotFound p
  | Done z =>
      match zip_write dir "media" "media" z with
      | FileNotFound p => FileNotFound p
      | Done z => zip_write_all dir (listdir dir) z
      end
  end.

(* ================================================================== *)
(** ** Checksums of the sort field *)

(** [ord(c)]; a text is kept as the string of its characters, of the codes
    up to 255. *)
Definition ord (c : ascii) : Z := Z.of_N (N_of_ascii c).

(** [AnkiSM2.calculate_checksum]: [sum(ord(c) for c in text) & 0xFFFFFFFF] *)
Definition calculate_checksum (text : string) : Z :=
  Z.land (fold_left Z.add (map ord (list_ascii_of_string text)) 0) 0xFFFFFFFF.

(** [AnkiFlashcardApp._checksum]: the loop
    [val = ((val * 31) + ord(c)) & 0xFFFFFFFF], from [val = 0]. *)
Definition _checksum (text : string) : Z :=
  fold_left (fun val c => Z.land (val * 31 + ord c) 0xFFFFFFFF)
            (list_ascii_of_string text) 0.

(* ================================================================== *)
(** ** Adding a card: [AnkiSM2.add_card] *)

Definition set_notes (d : db) (ns : list note) : db :=
  {| db_col := db_col d;  db_notes := ns;  db_cards := db_cards d;
     db_revlog := db_revlog d;  db_media := db_media d |}.

(** The readings during [add_card]: [int(time.time())],
    [int(time.time() * 1000)], [random.randint(1, 1000)] and
    [random.randint(1, 10)]. *)
Record card_clock : Type := {
  add_time : Z;
  add_time_ms : Z;
  id_jitter : Z;
  new_position : Z
}.

(** The card row that [add_card] and [add_note] insert. *)
Definition new_card (card_id note_id deck_id ord_ current_time due_ : Z) : card :=
  {| c_id := card_id;  c_nid := note_id;  c_did := deck_id;  c_ord := ord_;
     c_mod := current_time;  c_usn := -1;  c_type := 0;  c_queue := 0;
     c_due := due_;  c_ivl := 0;  c_factor := 2500;  c_reps := 0;
     c_lapses := 0;  c_left := 0;  c_odue := 0;  c_odid := 0;  c_flags := 0;
     c_data := "" |}.

(** [notes.id] and [cards.id] are primary keys. *)
Definition insert_note (n : note) (ns : list note) : result (list note) :=
  if existsb (fun x => n_id x =? n_id n) ns then Raise IntegrityError
  else Ok (ns ++ [n])%list.

Definition insert_card (c : card) (cs : list card) : result (list card) :=
  if existsb (fun x => c_id x =? c_id c) cs then Raise IntegrityError
  else Ok (cs ++ [c])%list.

(** [add_card] of [review_anki_schema.py] (model id 1, deck id 1). *)
Definition add_card (clk : card_clock) (d : db) (question answer : string)
    : result Z * db :=
  let current_time := add_time clk in
  let note_id := add_time_ms clk + id_jitter clk in
  let card_id := note_id in
  let fields := (question ++ String sep "" ++ answer)%string in
  let sfld := question in
  let csum := calculate_checksum sfld in
  match insert_note
          {| n_id := note_id;  n_guid := Py.str note_id;  n_mid := 1;
             n_mod := current_time;  n_usn := -1;  n_tags := "";
             n_flds := fields;  n_sfld := sfld;  n_csum := csum;
             n_flags := 0;  n_data := "" |}
          (db_notes d) with
  | Raise e => (Raise e, d)
  | Ok ns =>
      let d1 := set_notes d ns in
      match insert_card
              (new_card card_id note_id 1 0 current_time (new_position clk))
              (db_cards d1) with
      | Raise e => (Raise e, d1)
      | Ok cs => (Ok card_id, set_cards d1 cs)
      end
  end.

(* ================================================================== *)
(** ** Decks and lookups by name: [add_deck], [searchModelId], [searchDeckId] *)

(** [for id in models: if models[id]["name"] == model: ...; break]: the
    first key, in document order, whose model has the name. *)
Definition searchModelId (d : db) (model : string) : option string :=
  let models := col_models (db_col d) in
  find (fun id => match dict_get id models with
                  | Some m => String.eqb (m_name m) model
                  | None => false
                  end)
       (dict_keys models).

Definition searchDeckId (d : db) (deck_name : string) : option string :=
  let decks := col_decks (db_col d) in
  find (fun id => match dict_get id decks with
                  | Some dk => String.eqb (d_name dk) deck_name
                  | None => false
                  end)
       (dict_keys decks).

(** [add_deck]; the clock readings are those of [add_model]. *)
Definition add_deck (clk : model_clock) (d : db) (name : string) : Z * db :=
  let decks := col_decks (db_col d) in
  let deck_id := id_time_ms clk in
  let dk := {| d_id := deck_id;  d_name := name;  d_mod := mod_time clk |} in
  let c := db_col d in
  (deck_id,
   set_col d
     {| col_crt := col_crt c;  col_mod := col_mod_time clk;
        col_scm := col_scm c;  col_ver := col_ver c;
        col_conf := col_conf c;  col_models := col_models c;
        col_decks := dict_set (Py.str deck_id) dk decks;
        col_dconf := col_dconf c;  col_tags := col_tags c |}).

(* ================================================================== *)
(** ** Adding a note: [AnkiFlashcardApp.add_note] *)

(** The exceptions of a missing key and of an index out of range, beside
    those of the scheduler. *)
Inductive error : Type :=
| KeyError
| IndexError
| Builtin (e : exn).

Inductive outcome (A : Type) : Type :=
| Return (a : A)
| Throw (e : error).

Arguments Return {A} a.
Arguments Throw {A} e.

(** The readings during [add_note]: [int(time.time() * 1000)] for the note
    id, [int(time.time())], and one [int(time.time() * 1000)] in each round
    of the loop over the templates; [random.randrange(1 << 30, 1 << 31)]
    for the guid. *)
Record note_clock : Type := {
  note_time_ms : Z;
  note_guid : Z;
  note_time : Z;
  card_time_ms : nat -> Z
}.

(** The loop [for template in model["tmpls"]]: the card id is the reading
    of the round plus the template's [ord]; a card is inserted unless the
    [col] table has a row with that id, and [col] holds the one row of
    id 1. *)
Fixpoint add_note_cards (clk : note_clock) (round : nat) (note_id deck_id : Z)
    (tmpls : list template_def) (cs : list card) : result unit * list card :=
  match tmpls with
  | [] => (Ok tt, cs)
  | t :: tmpls' =>
      let card_id := card_time_ms clk round + t_ord t in
      if card_id =? 1 then
        add_note_cards clk (S round) note_id deck_id tmpls' cs
      else
        match insert_card
                (new_card card_id note_id deck_id (t_ord t) (note_time clk) 0)
                cs with
        | Raise e => (Raise e, cs)
        | Ok cs' => add_note_cards clk (S round) note_id deck_id tmpls' cs'
        end
  end.

(** [add_note]: the outcome and the tables as the connection of the call
    holds them; [models[str(model_id)]] and [fields_data[0]] are read before
    anything is written. *)
Definition add_note (clk : note_clock) (d : db) (model_id deck_id : Z)
    (fields_data : list string) (tags : list string) : outcome Z * db :=
  match dict_get (Py.str model_id) (col_models (db_col d)) with
  | None => (Throw KeyError, d)
  | Some model =>
      let note_id := note_time_ms clk in
      let fields_str := String.concat (String sep "") fields_data in
      match fields_data with
      | [] => (Throw IndexError, d)
      | sfld :: _ =>
          let n :=
            {| n_id := note_id;  n_guid := Py.str (note_guid clk);
               n_mid := model_id;  n_mod := note_time clk;  n_usn := -1;
               n_tags := String.concat " " tags;  n_flds := fields_str;
               n_sfld := sfld;  n_csum := _checksum sfld;
               n_flags := 0;  n_data := "" |} in
          let ns :=
            if existsb (fun x => n_id x =? note_id) (db_notes d)
            then db_notes d else (db_notes d ++ [n])%list in
          let d1 := set_notes d ns in
          match add_note_cards clk 0 note_id deck_id (m_tmpls model)
                  (db_cards d1) with
          | (Raise e, cs) => (Throw (Builtin e), set_cards d1 cs)
          | (Ok _, cs) => (Return note_id, set_cards d1 cs)
          end
      end
  end.

(* ================================================================== *)
(** ** The review endpoint of the server: [process_review] *)

(** A row of the server's [cards] table; [due_date] is kept as the day
    count and the time of day of the formatted timestamp. *)
Record server_card : Type := {
  sc_id : Z;  sc_front : string;  sc_back : string;
  sc_due_date : Z * Z;
  sc_ease_factor : Py.float;  sc_interval : Z;  sc_repetitions : Z
}.

(** [datetime.now() + timedelta(days=interval)], with [now] on day
    [now_day] since the epoch: [timedelta] takes at most 999999999 days,
    and the sum must be a date from 0001-01-01 to 9999-12-31. *)
Definition plus_days (now_day interval : Z) : result Z :=
  if (Z.abs interval <=? 999999999)
     && (-719162 <=? now_day + interval) && (now_day + interval <=? 2932896)
  then Ok (now_day + interval)
  else Raise OverflowError.

(** The response status and the table afterwards; an exception leaves the
    handler before the [UPDATE]. [card_id] and [difficulty] are the integers
    of the request body. *)
Inductive response : Type :=
| Status200
| Status404
| Failed (e : exn).

Definition process_review (now : Z * Z) (cards : list server_card)
    (card_id difficulty : Z) : response * list server_card :=
  match find (fun c => sc_id c =? card_id) cards with
  | None => (Status404, cards)
  | Some c =>
      match calculate_next_review
              {| pc_ease_factor := sc_ease_factor c;
                 pc_interval := sc_interval c;
                 pc_repetitions := sc_repetitions c |} difficulty with
      | Raise e => (Failed e, cards)
      | Ok (interval, ease_factor) =>
          match plus_days (fst now) interval with
          | Raise e => (Failed e, cards)
          | Ok day =>
              (Status200,
               map (fun r =>
                      if sc_id r =? card_id then
                        {| sc_id := sc_id r;  sc_front := sc_front r;
                           sc_back := sc_back r;
                           sc_due_date := (day, snd now);
                           sc_ease_factor := ease_factor;
                           sc_interval := interval;
                           sc_repetitions := sc_repetitions r + 1 |}
                      else r)
                   cards)
          end
      end
  end.

(* ================================================================== *)
(** ** A review session: [AnkiSM2.run_review_session] *)

(** How a session ends: after the last card, at the end of the input
    ([EOFError] of [input]), or with the exception of a review. *)
Inductive session : Type :=
| Completed
| EndOfInput
| Stopped (e : exn).

(** A typed line is kept as what [int()] makes of it: [Some z], or [None]
    for the [ValueError] that the loop catches.

    [while True: quality = int(input(...)); if 0 <= quality <= 5: break]:
    lines are read until one is a number from 0 to 5. *)
Fixpoint read_quality (lines : list (option Z)) : option (Z * list (option Z)) :=
  match lines with
  | [] => None
  | Some quality :: lines' =>
      if (0 <=? quality) && (quality <=? 5) then Some (quality, lines')
      else read_quality lines'
  | None :: lines' => read_quality lines'
  end.

(** The loop over the due cards: one line for [Press Enter], the rating,
    and the review, with the clock readings of that round. *)
Fixpoint review_cards (clks : nat -> clock) (round : nat)
    (lines : list (option Z)) (d : db) (cards : list due_card) : session * db :=
  match cards with
  | [] => (Completed, d)
  | card :: cards' =>
      match lines with
      | [] => (EndOfInput, d)
      | _ :: lines1 =>
          match read_quality lines1 with
          | None => (EndOfInput, d)
          | Some (quality, lines2) =>
              match apply_sm2_algorithm (clks round) d (dc_id card) quality with
              | (Ok _, d') => review_cards clks (S round) lines2 d' cards'
              | (Raise e, d') => (Stopped e, d')
              end
          end
      end
  end.

(** [as_of] is the day that [get_cards_due_today] reads at the start. *)
Definition run_review_session (as_of : Z) (clks : nat -> clock)
    (lines : list (option Z)) (d : db) : session * db :=
  review_cards clks 0 lines d (get_cards_due_today as_of d).

(* ================================================================== *)
(** ** Predicates of the proofs *)

(** The range of an SQLite [INTEGER] column. *)
Definition int64 (z : Z) : Prop := - 2 ^ 63 <= z < 2 ^ 63.

(** The scheduling columns that enter the floating-point computation. *)
Definition card_wf (c : card) : Prop := int64 (c_factor c) /\ int64 (c_ivl c).

(** The exponent function of binary64. *)
Definition fexp64 : Z -> Z := fexp Py.prec Py.emax.

(** Zero or finite, of magnitude below [2 ^ B]. *)
Definition mag_le (B : Z) (x : spec_float) : Prop :=
  match x with
  | S754_zero _ => True
  | S754_finite _ p e => Zdigits2 (Zpos p) + e <= B
  | _ => False
  end.

(** A finite float above the subnormal exponent has a full mantissa. *)
Definition normal_or_small (x : spec_float) : Prop :=
  match x with
  | S754_finite _ p e => -1074 < e -> 2 ^ 52 <= Zpos p
  | _ => True
  end.

Definition fin (B : Z) (x : spec_float) : Prop :=
  mag_le B x /\ normal_or_small x.

(** [x >= N] for a positive float and an integer. *)
Definition ge_int (N : Z) (x : spec_float) : Prop :=
  match x with
  | S754_finite false p e => N * 2 ^ Z.max 0 (- e) <= Zpos p * 2 ^ Z.max 0 e
  | S754_infinity false => True
  | _ => False
  end.

(** The columns of a card row that the scheduler never writes. *)
Definition same_identity (c c' : card) : Prop :=
  c_id c' = c_id c /\ c_nid c' = c_nid c /\ c_did c' = c_did c /\
  c_ord c' = c_ord c /\ c_usn c' = c_usn c /\ c_odue c' = c_odue c /\
  c_odid c' = c_odid c /\ c_flags c' = c_flags c /\ c_data c' = c_data c.

(** The polynomial that [_checksum] evaluates, without the masks. *)
Definition horner (text : string) : Z :=
  fold_left (fun val c => val * 31 + ord c) (list_ascii_of_string text) 0.

(** No character of [s] is the field separator. *)
Definition no_sep (s : string) : Prop := ~ In sep (list_ascii_of_string s).

(** What the databases written by [add_card] and the scheduler satisfy:
    note ids are unique, every card has its note, every note has at least
    two fields. *)
Definition db_ok (d : db) : Prop :=
  NoDup (map n_id (db_notes d)) /\
  (forall c, In c (db_cards d) -> exists n, In n (db_notes d) /\ n_id n = c_nid c) /\
  (forall n, In n (db_notes d) ->
             (2 <= List.length (Str.split sep (n_flds n)))%nat).

(** Scheduling columns in the range in which the values that one review
    computes from them fit an [INTEGER] column again. *)
Definition card_small (c : card) : Prop :=
  0 <= c_ivl c <= 2 ^ 31 /\ 0 <= c_factor c <= 2 ^ 31.

(** The cards of a note, one for each template: what the loop of
    [add_note] inserts when no id is refused. *)
Fixpoint note_cards (clk : note_clock) (round : nat) (note_id deck_id : Z)
    (tmpls : list template_def) : list card :=
  match tmpls with
  | [] => []
  | t :: tmpls' =>
      new_card (card_time_ms clk round + t_ord t) note_id deck_id (t_ord t)
               (note_time clk) 0
      :: note_cards clk (S round) note_id deck_id tmpls'
  end.

(** What a session has done to a card row of the start: nothing, for an id
    it has not reviewed; a reviewed card is off the due list of the day. *)
Definition reviewed (as_of : Z) (done : list Z) (c c' : card) : Prop :=
  c_id c' = c_id c /\ c_nid c' = c_nid c /\
  (In (c_id c) done -> card_is_due as_of c' = false) /\
  (~ In (c_id c) done -> c' = c).

(* ================================================================== *)
(** ** Sample data *)

(** A card as [add_card] inserts it, with a given interval and factor. *)
Definition sample_card (ivl factor : Z) : card :=
  {| c_id := 1;  c_nid := 1;  c_did := 1;  c_ord := 0;  c_mod := 1699990000;
     c_usn := -1;  c_type := 2;  c_queue := 2;  c_due := 19675;
     c_ivl := ivl;  c_factor := factor;  c_reps := 2;  c_lapses := 0;
     c_left := 0;  c_odue := 0;  c_odid := 0;  c_flags := 0;  c_data := "" |}.

Definition sample_note (flds : string) : note :=
  {| n_id := 1;  n_guid := "1";  n_mid := 1;  n_mod := 1699990000;
     n_usn := -1;  n_tags := "";  n_flds := flds;  n_sfld := flds;
     n_csum := 0;  n_flags := 0;  n_data := "" |}.

Definition sample_col : col_row :=
  {| col_crt := 1699990000;  col_mod := 1699990000;  col_scm := 1;
     col_ver := 11;  col_conf := "{}";  col_models := [];  col_decks := [];
     col_dconf := "{}";  col_tags := "{}" |}.

Definition sample_db (c : card) (n : note) (log : list revlog_entry) : db :=
  {| db_col := sample_col;  db_notes := [n];  db_cards := [c];
     db_revlog := log;  db_media := None |}.

Definition sample_clock : clock :=
  {| current_time := 1700000000;  today := 19675;
     review_id := 1700000000123;  time_spent := 5000 |}.


Definition sample_qa : string := "Q" ++ String sep "A".

(** Sample arguments of [add_model] and of the exporters. *)
Definition sample_templates : list template_in :=
  [ {| in_name := "Card 1";  in_qfmt := "{{Question}}";
       in_afmt := "{{FrontSide}}<hr id=answer>{{Answer}}" |} ].

Definition sample_model_clock (ms : Z) : model_clock :=
  {| id_time_ms := ms;  mod_time := 1700000000;  col_mod_time := 1700000000 |}.

Definition sample_media_db : db :=
  {| db_col := sample_col;  db_notes := [];  db_cards := [];  db_revlog := [];
     db_media := Some [ {| md_id := 0;  md_data := "PNG";
                           md_filename := "hoop.png" |} ] |}.

(** Sample readings and rows for the other entry points. *)
Definition sample_card_clock : card_clock :=
  {| add_time := 1700000000;  add_time_ms := 1700000000123;
     id_jitter := 417;  new_position := 3 |}.

Definition sample_note_clock : note_clock :=
  {| note_time_ms := 1700000000200;  note_guid := 1234567890;
     note_time := 1700000000;
     card_time_ms := fun round => 1700000000200 + Z.of_nat round |}.

Definition sample_server_card : server_card :=
  {| sc_id := 7;  sc_front := "Who invented basketball?";
     sc_back := "Dr. James Naismith";  sc_due_date := (19675, 43200);
     sc_ease_factor := Py.literal 25 10;  sc_interval := 6;
     sc_repetitions := 4 |}.

(* ================================================================== *)
(** * Facts *)

(** ** The literals and the numeric built-ins on examples *)

Example literal_1_3 : Py.f1_3 = S754_finite false 5854679515581645 (-52).
Proof. reflexivity. Qed.

Example literal_0_2 : Py.f0_2 = S754_finite false 7205759403792794 (-55).
Proof. reflexivity. Qed.

Example literal_0_1 : Py.f0_1 = S754_finite false 7205759403792794 (-56).
Proof. reflexivity. Qed.

Example literal_0_08 : Py.f0_08 = S754_finite false 5764607523034235 (-56).
Proof. reflexivity. Qed.

Example literal_0_02 : Py.f0_02 = S754_finite false 5764607523034235 (-58).
Proof. reflexivity. Qed.

Example literal_1000 : Py.f1000 = S754_finite false 8796093022208000 (-43).
Proof. reflexivity. Qed.

Example round_half_even :
  Py.round (Py.literal 5 2) = Ok 2 /\ Py.round (Py.literal 7 2) = Ok 4 /\
  Py.round (Py.literal (-1) 2) = Ok 0 /\ Py.int (Py.literal (-27) 10) = Ok (-2).
Proof. repeat split. Qed.

Example str_examples : Py.str 0 = "0" /\ Py.str 1718000000123 = "1718000000123".
Proof. split; reflexivity. Qed.

(** ** Rounding in binary64 *)

(** The number of binary digits, against [Z.log2] and the powers of two. *)
Lemma Zdigits2_log2 (m : Z) : 0 < m -> Zdigits2 m = Z.log2 m + 1.
Proof.
  destruct m as [|p|p]; try lia. intros _. simpl.
  induction p as [p IH|p IH|]; simpl in *; try lia.
  - destruct p; simpl in *; lia.
  - destruct p; simpl in *; lia.
Qed.

Lemma Zdigits2_nonneg (m : Z) : 0 <= Zdigits2 m.
Proof. destruct m; simpl; lia. Qed.

Lemma Zdigits2_lt (m k : Z) : 0 < m -> (m < 2 ^ k <-> Zdigits2 m <= k).
Proof.
  intros Hm. rewrite Zdigits2_log2 by assumption.
  rewrite Z.log2_lt_pow2 by assumption. lia.
Qed.

Lemma Zdigits2_le (m k : Z) : 0 < m -> (2 ^ k <= m <-> k < Zdigits2 m).
Proof.
  intros Hm. rewrite Zdigits2_log2 by assumption.
  rewrite Z.log2_le_pow2 by assumption. lia.
Qed.

(** Shifting the mantissa right is division by a power of two. *)
Lemma shr_1_m (r : shr_record) : 0 <= shr_m r -> shr_m (shr_1 r) = shr_m r / 2.
Proof.
  destruct r as [m r s]. simpl. intros Hm.
  destruct m as [|p|p]; try lia; try reflexivity.
  destruct p as [p|p|]; simpl.
  - rewrite Pos2Z.inj_xI. apply Z.div_unique with 1; lia.
  - rewrite Pos2Z.inj_xO. apply Z.div_unique with 0; lia.
  - reflexivity.
Qed.

Lemma iter_pos_shr_m (p : positive) : forall r : shr_record,
  0 <= shr_m r -> shr_m (iter_pos shr_1 p r) = shr_m r / 2 ^ Zpos p.
Proof.
  assert (H1 : forall r, 0 <= shr_m r -> 0 <= shr_m (shr_1 r)).
  { intros r Hr. rewrite shr_1_m by assumption. apply Z.div_pos; lia. }
  induction p as [p IH|p IH|]; intros r Hr; simpl iter_pos.
  - rewrite IH, IH, shr_1_m by (try rewrite IH; auto; apply Z.div_pos; auto; lia).
    rewrite !Zdiv_Zdiv by lia. f_equal.
    rewrite Pos2Z.inj_xI, Z.pow_add_r, Z.pow_1_r by lia.
    replace (2 * Zpos p) with (Zpos p + Zpos p) by lia.
    rewrite Z.pow_add_r by lia. ring.
  - rewrite IH, IH by (try rewrite IH; auto; apply Z.div_pos; auto; lia).
    rewrite !Zdiv_Zdiv by lia. f_equal.
    replace (Zpos p~0) with (Zpos p + Zpos p) by lia.
    rewrite Z.pow_add_r by lia. ring.
  - rewrite shr_1_m by assumption. reflexivity.
Qed.

Lemma shr_record_of_loc_m (m : Z) (l : location) : shr_m (shr_record_of_loc m l) = m.
Proof. destruct l as [|[]]; reflexivity. Qed.


Lemma shr_fexp_spec (m e : Z) (l : location) :
  0 <= m ->
  let k := Z.max 0 (fexp64 (Zdigits2 m + e) - e) in
  shr_m (fst (shr_fexp Py.prec Py.emax m e l)) = m / 2 ^ k /\
  snd (shr_fexp Py.prec Py.emax m e l) = e + k.
Proof.
  intros Hm k. unfold shr_fexp, shr. fold fexp64.
  subst k. destruct (fexp64 (Zdigits2 m + e) - e) as [|p|p] eqn:E; simpl fst; simpl snd.
  - rewrite shr_record_of_loc_m. rewrite Z.max_l by lia. rewrite Z.pow_0_r, Z.div_1_r. lia.
  - rewrite iter_pos_shr_m by (rewrite shr_record_of_loc_m; assumption).
    rewrite shr_record_of_loc_m. rewrite Z.max_r by lia. split; reflexivity.
  - rewrite shr_record_of_loc_m. rewrite Z.max_l by lia. rewrite Z.pow_0_r, Z.div_1_r. lia.
Qed.

Lemma round_nearest_even_bounds (m : Z) (l : location) :
  m <= round_nearest_even m l <= m + 1.
Proof. destruct l as [|[]]; simpl; try lia. destruct (Z.even m); lia. Qed.

(** The explicit form of rounding. *)
Lemma binary_round_aux_spec (s : bool) (m e : Z) (l : location) :
  0 <= m ->
  exists m1,
    let k1 := Z.max 0 (fexp64 (Zdigits2 m + e) - e) in
    let k2 := Z.max 0 (fexp64 (Zdigits2 m1 + (e + k1)) - (e + k1)) in
    m / 2 ^ k1 <= m1 <= m / 2 ^ k1 + 1 /\
    binary_round_aux Py.prec Py.emax s m e l =
      match m1 / 2 ^ k2 with
      | Z0 => S754_zero s
      | Zpos p => if e + k1 + k2 <=? Py.emax - Py.prec
                  then S754_finite s p (e + k1 + k2) else S754_infinity s
      | Zneg _ => S754_nan
      end.
Proof.
  intros Hm. unfold binary_round_aux.
  pose proof (shr_fexp_spec m e l Hm) as [H1 H2].
  destruct (shr_fexp Py.prec Py.emax m e l) as [mrs' e'] eqn:E1. simpl in H1, H2.
  set (m1 := round_nearest_even (shr_m mrs') (loc_of_shr_record mrs')).
  exists m1. cbv zeta.
  pose proof (round_nearest_even_bounds (shr_m mrs') (loc_of_shr_record mrs')) as Hb.
  fold m1 in Hb. rewrite H1 in Hb. split; [exact Hb|].
  assert (Hm1 : 0 <= m1).
  { destruct Hb as [Hb _]. eapply Z.le_trans; [|exact Hb]. apply Z.div_pos; lia. }
  pose proof (shr_fexp_spec m1 e' loc_Exact Hm1) as [H3 H4].
  destruct (shr_fexp Py.prec Py.emax m1 e' loc_Exact) as [mrs'' e''] eqn:E2. simpl in H3, H4.
  subst e'. rewrite H3, H4. rewrite Z.add_assoc. reflexivity.
Qed.


Lemma fexp64_eq (x : Z) : fexp64 x = Z.max (x - 53) (-1074).
Proof. reflexivity. Qed.

Lemma Zdigits2_div_pow2 (m k : Z) :
  0 < m -> 0 <= k -> 0 < m / 2 ^ k -> Zdigits2 (m / 2 ^ k) = Zdigits2 m - k.
Proof.
  intros Hm Hk Hq. rewrite !Zdigits2_log2 by assumption.
  rewrite <- Z.shiftr_div_pow2 by assumption.
  rewrite Z.log2_shiftr by assumption.
  assert (Z.log2 m - k >= 0); [|lia].
  destruct (Z_lt_le_dec (Z.log2 m) k) as [Hlt|]; [|lia].
  rewrite <- Z.shiftr_div_pow2 in Hq by assumption.
  rewrite Z.shiftr_eq_0 in Hq by lia. lia.
Qed.

Lemma Zdigits2_succ_le (m : Z) : 0 <= m -> Zdigits2 (m + 1) <= Zdigits2 m + 1.
Proof.
  intros Hm. destruct (Z.eq_dec m 0) as [->|Hne]; [simpl; lia|].
  apply Zdigits2_lt; [lia|].
  assert (m < 2 ^ Zdigits2 m) by (apply Zdigits2_lt; lia).
  pose proof (Zdigits2_nonneg m).
  rewrite Z.pow_add_r, Z.pow_1_r by lia. lia.
Qed.

Lemma Zdigits2_mono (a b : Z) : 0 < a -> a <= b -> Zdigits2 a <= Zdigits2 b.
Proof.
  intros Ha Hab. apply Zdigits2_lt; [assumption|].
  assert (b < 2 ^ Zdigits2 b) by (apply Zdigits2_lt; lia). lia.
Qed.

Lemma Zdigits2_pos (m : Z) : 0 < m -> 0 < Zdigits2 m.
Proof. destruct m; simpl; lia. Qed.

(** After rounding, the magnitude grows by at most one binade; below the
    overflow threshold the result is finite. *)
Lemma binary_round_aux_mag (s : bool) (m e : Z) (l : location) (B : Z) :
  0 <= m -> Zdigits2 m + e <= B -> e < B -> -1074 <= B -> B <= 971 ->
  mag_le (B + 1) (binary_round_aux Py.prec Py.emax s m e l).
Proof.
  intros Hm Hd He HB1 HB2.
  destruct (binary_round_aux_spec s m e l Hm) as (m1 & Hb & ->).
  cbv zeta in Hb.
  set (k1 := Z.max 0 (fexp64 (Zdigits2 m + e) - e)) in *.
  set (k2 := Z.max 0 (fexp64 (Zdigits2 m1 + (e + k1)) - (e + k1))).
  assert (Hk1 : 0 <= k1) by lia.
  assert (Hk2 : 0 <= k2) by lia.
  assert (Hq : 0 <= m / 2 ^ k1) by (apply Z.div_pos; lia).
  assert (Hm1 : 0 <= m1) by lia.
  destruct (m1 / 2 ^ k2) as [|p|p] eqn:E.
  - exact I.
  - assert (Hm1p : 0 < m1).
    { destruct (Z.eq_dec m1 0) as [->|]; [|lia]. rewrite Z.div_0_l in E by lia. discriminate. }
    assert (Hdp : Zdigits2 (Zpos p) = Zdigits2 m1 - k2).
    { rewrite <- E. apply Zdigits2_div_pow2; lia. }
    assert (Hd1 : Zdigits2 m1 + (e + k1) <= B + 1).
    { pose proof (fexp64_eq (Zdigits2 m + e)) as Hf.
      destruct (Z.eq_dec (m / 2 ^ k1) 0) as [Hz|Hnz].
      - assert (m1 = 1) by lia. subst m1. simpl Zdigits2.
        pose proof (Zdigits2_nonneg m). lia.
      - assert (Zdigits2 m1 <= Zdigits2 (m / 2 ^ k1) + 1).
        { etransitivity; [apply Zdigits2_mono with (b := m / 2 ^ k1 + 1); lia|].
          apply Zdigits2_succ_le; lia. }
        assert (0 < m).
        { destruct (Z.eq_dec m 0) as [->|]; [|lia]. rewrite Z.div_0_l in Hnz by lia. lia. }
        rewrite Zdigits2_div_pow2 in H by lia. lia. }
    pose proof (Zdigits2_pos (Zpos p) ltac:(lia)) as Hpp.
    pose proof (fexp64_eq (Zdigits2 m1 + (e + k1))) as Hf2.
    assert (Hfin : e + k1 + k2 <= Py.emax - Py.prec).
    { unfold Py.emax, Py.prec. lia. }
    apply Z.leb_le in Hfin. rewrite Hfin. unfold mag_le. lia.
  - exfalso. assert (0 <= m1 / 2 ^ k2) by (apply Z.div_pos; lia). lia.
Qed.


(** A rounded result has a full mantissa unless it is subnormal, provided
    the input mantissa was long enough. *)
Lemma binary_round_aux_normal (s : bool) (m e : Z) (l : location) :
  0 <= m ->
  (0 < m -> e <= fexp64 (Zdigits2 m + e)) ->
  (m = 0 -> e <= -1074) ->
  normal_or_small (binary_round_aux Py.prec Py.emax s m e l).
Proof.
  intros Hm Hd H0.
  destruct (binary_round_aux_spec s m e l Hm) as (m1 & Hb & ->).
  cbv zeta in Hb.
  set (k1 := Z.max 0 (fexp64 (Zdigits2 m + e) - e)) in *.
  set (k2 := Z.max 0 (fexp64 (Zdigits2 m1 + (e + k1)) - (e + k1))).
  assert (Hq : 0 <= m / 2 ^ k1) by (apply Z.div_pos; lia).
  destruct (m1 / 2 ^ k2) as [|p|p] eqn:E; try exact I.
  destruct (e + k1 + k2 <=? Py.emax - Py.prec); [|exact I].
  unfold normal_or_small. intros He.
  assert (Hm1p : 0 < m1).
  { destruct (Z.eq_dec m1 0) as [->|]; [|lia]. rewrite Z.div_0_l in E by lia. discriminate. }
  assert (Hdp : Zdigits2 (Zpos p) = Zdigits2 m1 - k2).
  { rewrite <- E. apply Zdigits2_div_pow2; lia. }
  assert (Hgoal : 52 < Zdigits2 (Zpos p)); [|apply Zdigits2_le; lia].
  pose proof (fexp64_eq (Zdigits2 m + e)) as Hf1.
  pose proof (fexp64_eq (Zdigits2 m1 + (e + k1))) as Hf2.
  destruct (Z.eq_dec m 0) as [Hz|Hnz].
  - (* the quotient was zero: only the smallest subnormal can come out *)
    subst m. rewrite Z.div_0_l in Hb by lia.
    assert (m1 = 1) by lia. subst m1. simpl Zdigits2 in *. specialize (H0 eq_refl). lia.
  - assert (Hmp : 0 < m) by lia. specialize (Hd Hmp).
    destruct (Z.eq_dec (m / 2 ^ k1) 0) as [Hz|Hnz'].
    + assert (m1 = 1) by lia. subst m1. simpl Zdigits2 in *.
      assert (Zdigits2 m <= k1).
      { apply Zdigits2_lt; [lia|]. apply Z.div_small_iff in Hz; lia. }
      lia.
    + assert (Hdq : Zdigits2 (m / 2 ^ k1) = Zdigits2 m - k1)
        by (apply Zdigits2_div_pow2; lia).
      assert (Zdigits2 (m / 2 ^ k1) <= Zdigits2 m1)
        by (apply Zdigits2_mono; lia).
      lia.
Qed.

Lemma Pos_iter_xO (p d : positive) : Zpos (Pos.iter xO p d) = Zpos p * 2 ^ Zpos d.
Proof.
  induction d as [|d IH] using Pos.peano_ind.
  - simpl. lia.
  - rewrite Pos.iter_succ, Pos2Z.inj_xO, IH, Pos2Z.inj_succ, Z.pow_succ_r by lia. ring.
Qed.

Lemma shl_align_spec (m : positive) (e e' : Z) :
  snd (shl_align m e e') = Z.min e e' /\
  Zpos (fst (shl_align m e e')) = Zpos m * 2 ^ (e - Z.min e e').
Proof.
  unfold shl_align. destruct (e' - e) as [|d|d] eqn:E; simpl fst; simpl snd.
  - rewrite Z.min_l by lia. rewrite Z.sub_diag. simpl. lia.
  - rewrite Z.min_l by lia. rewrite Z.sub_diag. simpl. lia.
  - rewrite Z.min_r by lia. split; [reflexivity|].
    rewrite Pos_iter_xO. f_equal. f_equal. lia.
Qed.

Lemma Zdigits2_mul_pow2 (m k : Z) : 0 < m -> 0 <= k -> Zdigits2 (m * 2 ^ k) = Zdigits2 m + k.
Proof.
  intros Hm Hk. rewrite !Zdigits2_log2 by (try apply Z.mul_pos_pos; lia).
  rewrite Z.log2_mul_pow2 by lia. lia.
Qed.

Lemma binary_round_mag (s : bool) (m : positive) (e B : Z) :
  Zdigits2 (Zpos m) + e <= B -> -1074 <= B -> B <= 971 ->
  mag_le (B + 1) (binary_round Py.prec Py.emax s m e).
Proof.
  intros Hd HB1 HB2. unfold binary_round.
  pose proof (shl_align_spec m e (fexp Py.prec Py.emax (Zpos (digits2_pos m) + e))) as [H1 H2].
  destruct (shl_align m e _) as [mz ez]. cbn [fst snd] in H1, H2.
  assert (Hdz : Zdigits2 (Zpos mz) + ez = Zdigits2 (Zpos m) + e).
  { rewrite H2, Zdigits2_mul_pow2 by lia. lia. }
  pose proof (Zdigits2_pos (Zpos mz) ltac:(lia)).
  apply binary_round_aux_mag; lia.
Qed.

Lemma binary_round_normal (s : bool) (m : positive) (e : Z) :
  normal_or_small (binary_round Py.prec Py.emax s m e).
Proof.
  unfold binary_round.
  pose proof (shl_align_spec m e (fexp Py.prec Py.emax (Zpos (digits2_pos m) + e))) as [H1 H2].
  destruct (shl_align m e _) as [mz ez]. cbn [fst snd] in H1, H2.
  assert (Hdz : Zdigits2 (Zpos mz) + ez = Zdigits2 (Zpos m) + e).
  { rewrite H2, Zdigits2_mul_pow2 by lia. lia. }
  apply binary_round_aux_normal; try lia.
  intros _. rewrite Hdz. fold fexp64 in H1. simpl Zdigits2. lia.
Qed.


Lemma mag_le_weaken (B B' : Z) (x : spec_float) : mag_le B x -> B <= B' -> mag_le B' x.
Proof. destruct x; simpl; auto. lia. Qed.

Lemma fin_weaken (B B' : Z) (x : spec_float) : fin B x -> B <= B' -> fin B' x.
Proof. intros [H1 H2] H. split; [eapply mag_le_weaken; eauto | assumption]. Qed.

Lemma binary_normalize_fin (m e B : Z) (sz : bool) :
  Z.abs m < 2 ^ (B - e) -> -1074 <= B -> B <= 971 ->
  fin (B + 1) (binary_normalize Py.prec Py.emax m e sz).
Proof.
  intros Hm HB1 HB2.
  assert (He : 0 <= B - e).
  { destruct (Z_lt_le_dec (B - e) 0); [|assumption].
    rewrite Z.pow_neg_r in Hm by assumption. lia. }
  destruct m as [|p|p]; simpl binary_normalize.
  - split; exact I.
  - split; [|apply binary_round_normal].
    apply binary_round_mag; try lia.
    assert (Zdigits2 (Zpos p) <= B - e) by (apply Zdigits2_lt; lia). lia.
  - split; [|apply binary_round_normal].
    apply binary_round_mag; try lia.
    assert (Zdigits2 (Zpos p) <= B - e) by (apply Zdigits2_lt; lia). lia.
Qed.

(** A 64-bit integer converts to a finite float. *)
Lemma float_of_Z_fin (z : Z) : - 2 ^ 63 <= z < 2 ^ 63 -> fin 64 (Py.float_of_Z z).
Proof.
  intros Hz. unfold Py.float_of_Z.
  destruct (Z.eq_dec z (- 2 ^ 63)) as [->|Hne].
  - split; [vm_compute; discriminate | vm_compute; discriminate].
  - apply (binary_normalize_fin z 0 63 false); lia.
Qed.

Lemma to_float_ok (z : Z) (B : Z) (x : spec_float) :
  mag_le B x -> x = Py.float_of_Z z -> Py.to_float z = Ok x.
Proof.
  intros H ->. unfold Py.to_float. destruct (Py.float_of_Z z); try reflexivity; contradiction.
Qed.

Lemma aligned_bound (m : positive) (e ez B : Z) :
  Zdigits2 (Zpos m) + e <= B -> ez <= e ->
  Zpos m * 2 ^ (e - ez) < 2 ^ (B - ez).
Proof.
  intros Hd He.
  assert (H : Zpos m < 2 ^ (B - e)) by (apply Zdigits2_lt; lia).
  pose proof (Zdigits2_pos (Zpos m) ltac:(lia)).
  replace (B - ez) with ((B - e) + (e - ez)) by lia.
  rewrite Z.pow_add_r by lia.
  apply Z.mul_lt_mono_pos_r; [apply Z.pow_pos_nonneg; lia | assumption].
Qed.

Lemma add_aligned_fin (sx sy : bool) (mx my : positive) (ex ey Bx By : Z) (neg : bool) :
  Zdigits2 (Zpos mx) + ex <= Bx -> Zdigits2 (Zpos my) + ey <= By ->
  -1074 <= Z.max Bx By + 1 -> Z.max Bx By + 1 <= 971 ->
  let ez := Z.min ex ey in
  let a := cond_Zopp sx (Zpos (fst (shl_align mx ex ez))) in
  let b := cond_Zopp sy (Zpos (fst (shl_align my ey ez))) in
  fin (Z.max Bx By + 2)
      (binary_normalize Py.prec Py.emax (if neg then a - b else a + b) ez false).
Proof.
  intros Hx Hy HB1 HB2 ez a b.
  replace (Z.max Bx By + 2) with ((Z.max Bx By + 1) + 1) by lia.
  apply binary_normalize_fin; try lia.
  pose proof (shl_align_spec mx ex ez) as [_ Ha].
  pose proof (shl_align_spec my ey ez) as [_ Hb].
  rewrite Z.min_r in Ha, Hb by (subst ez; lia).
  pose proof (aligned_bound mx ex ez Bx Hx ltac:(subst ez; lia)) as Hax.
  pose proof (aligned_bound my ey ez By Hy ltac:(subst ez; lia)) as Hbx.
  rewrite <- Ha in Hax. rewrite <- Hb in Hbx.
  pose proof (Zdigits2_pos (Zpos mx) ltac:(lia)).
  pose proof (Zdigits2_pos (Zpos my) ltac:(lia)).
  assert (H1 : 2 ^ (Bx - ez) <= 2 ^ (Z.max Bx By - ez))
    by (apply Z.pow_le_mono_r; subst ez; lia).
  assert (H2 : 2 ^ (By - ez) <= 2 ^ (Z.max Bx By - ez))
    by (apply Z.pow_le_mono_r; subst ez; lia).
  replace (Z.max Bx By + 1 - ez) with (Z.succ (Z.max Bx By - ez)) by lia.
  rewrite Z.pow_succ_r by (subst ez; lia).
  subst a b. destruct sx, sy, neg; unfold cond_Zopp; lia.
Qed.

(** Sums, differences, products and quotients of bounded floats are finite. *)
Lemma fadd_fin (x y : spec_float) (Bx By : Z) :
  fin Bx x -> fin By y -> -1074 <= Z.max Bx By + 1 -> Z.max Bx By + 1 <= 971 ->
  fin (Z.max Bx By + 2) (Py.fadd x y).
Proof.
  intros [Hx Nx] [Hy Ny] HB1 HB2.
  destruct x as [sx|sx| |sx mx ex], y as [sy|sy| |sy my ey]; try contradiction.
  - destruct sx, sy; split; exact I.
  - split; [|exact Ny]. simpl in *. lia.
  - split; [|exact Nx]. simpl in *. lia.
  - apply (add_aligned_fin sx sy mx my ex ey Bx By false); assumption.
Qed.

Lemma fsub_fin (x y : spec_float) (Bx By : Z) :
  fin Bx x -> fin By y -> -1074 <= Z.max Bx By + 1 -> Z.max Bx By + 1 <= 971 ->
  fin (Z.max Bx By + 2) (Py.fsub x y).
Proof.
  intros [Hx Nx] [Hy Ny] HB1 HB2.
  destruct x as [sx|sx| |sx mx ex], y as [sy|sy| |sy my ey]; try contradiction.
  - destruct sx, sy; split; exact I.
  - split; [|exact Ny]. simpl in *. lia.
  - split; [|exact Nx]. simpl in *. lia.
  - apply (add_aligned_fin sx sy mx my ex ey Bx By true); assumption.
Qed.

Lemma fmul_mag (x y : spec_float) (Bx By : Z) :
  mag_le Bx x -> mag_le By y -> -1074 <= Bx + By -> Bx + By <= 971 ->
  mag_le (Bx + By + 1) (Py.fmul x y).
Proof.
  intros Hx Hy HB1 HB2.
  destruct x as [sx|sx| |sx mx ex], y as [sy|sy| |sy my ey]; try contradiction;
    try exact I.
  unfold Py.fmul, SFmul. unfold mag_le in Hx, Hy.
  pose proof (Zdigits2_pos (Zpos mx) ltac:(lia)).
  pose proof (Zdigits2_pos (Zpos my) ltac:(lia)).
  apply binary_round_aux_mag; try lia.
  rewrite Pos2Z.inj_mul.
  assert (Zdigits2 (Zpos mx * Zpos my) <= Zdigits2 (Zpos mx) + Zdigits2 (Zpos my)); [|lia].
  apply Zdigits2_lt; [lia|].
  assert (Zpos mx < 2 ^ Zdigits2 (Zpos mx)) by (apply Zdigits2_lt; lia).
  assert (Zpos my < 2 ^ Zdigits2 (Zpos my)) by (apply Zdigits2_lt; lia).
  rewrite Z.pow_add_r by lia. nia.
Qed.

Lemma shift_numerator (m s : Z) :
  0 <= s ->
  match s with Z.pos _ => Z.shiftl m s | 0 => m | Z.neg _ => 0 end = m * 2 ^ s.
Proof.
  intros Hs. destruct s as [|p|p]; try lia.
  rewrite Z.shiftl_mul_pow2 by lia. reflexivity.
Qed.

(** The quotient and exponent that division hands to the rounding. *)
Lemma SFdiv_core_binary_spec (m1 m2 : positive) (e1 e2 : Z) :
  let e' := Z.min (fexp64 (Zdigits2 (Zpos m1) + e1 - (Zdigits2 (Zpos m2) + e2))) (e1 - e2) in
  exists l,
    SFdiv_core_binary Py.prec Py.emax (Zpos m1) e1 (Zpos m2) e2 =
    (Zpos m1 * 2 ^ (e1 - e2 - e') / Zpos m2, e', l).
Proof.
  intros e'. unfold SFdiv_core_binary. fold fexp64. fold e'.
  rewrite shift_numerator by (subst e'; lia).
  unfold Z.div.
  destruct (Z.div_eucl (Zpos m1 * 2 ^ (e1 - e2 - e')) (Z.pos m2)) as [q r].
  exists (new_location (Z.pos m2) r). reflexivity.
Qed.

Lemma fdiv_fin (x : spec_float) (sy : bool) (my : positive) (ey Bx : Z) :
  mag_le Bx x ->
  let B := Z.max (Bx - (Zdigits2 (Zpos my) + ey) + 1) (-1073) in
  B <= 971 ->
  fin (B + 1) (Py.fdiv x (S754_finite sy my ey)).
Proof.
  intros Hx B HB.
  destruct x as [sx|sx| |sx mx ex]; try contradiction.
  { split; exact I. }
  unfold mag_le in Hx. unfold Py.fdiv, SFdiv.
  destruct (SFdiv_core_binary_spec mx my ex ey) as (l & ->). cbv zeta.
  set (d1 := Zdigits2 (Zpos mx)) in *. set (d2 := Zdigits2 (Zpos my)) in *.
  set (D := d1 + ex - (d2 + ey)).
  set (e' := Z.min (fexp64 D) (ex - ey)).
  set (s := ex - ey - e').
  set (q := Zpos mx * 2 ^ s / Zpos my).
  assert (Hs : 0 <= s) by (subst s e'; lia).
  assert (Hd1 : 0 < d1) by (apply Zdigits2_pos; lia).
  assert (Hd2 : 0 < d2) by (apply Zdigits2_pos; lia).
  assert (H1l : 2 ^ (d1 - 1) <= Zpos mx) by (apply Zdigits2_le; lia).
  assert (H1u : Zpos mx < 2 ^ d1) by (apply Zdigits2_lt; lia).
  assert (H2l : 2 ^ (d2 - 1) <= Zpos my) by (apply Zdigits2_le; lia).
  assert (H2u : Zpos my < 2 ^ d2) by (apply Zdigits2_lt; lia).
  assert (Hps : 0 < 2 ^ s) by (apply Z.pow_pos_nonneg; lia).
  assert (Hq0 : 0 <= q) by (apply Z.div_pos; nia).
  assert (Hqm : q * Zpos my <= Zpos mx * 2 ^ s < (q + 1) * Zpos my).
  { pose proof (Z.div_mod (Zpos mx * 2 ^ s) (Zpos my) ltac:(lia)).
    pose proof (Z.mod_pos_bound (Zpos mx * 2 ^ s) (Zpos my) ltac:(lia)).
    fold q in H. nia. }
  assert (Hnum_l : 2 ^ (d1 - 1 + s) <= Zpos mx * 2 ^ s)
    by (rewrite Z.pow_add_r by lia; nia).
  assert (Hnum_u : Zpos mx * 2 ^ s < 2 ^ (d1 + s))
    by (rewrite Z.pow_add_r by lia; nia).
  pose proof (fexp64_eq D) as HfD.
  assert (Hupper : 0 < q -> Zdigits2 q + e' <= D + 1).
  { intros Hq.
    assert (Ht : d2 - 1 < d1 + s).
    { apply (Z.pow_lt_mono_r_iff 2); try lia. nia. }
    assert (q < 2 ^ (d1 + s - d2 + 1));
      [|assert (Zdigits2 q <= d1 + s - d2 + 1) by (apply Zdigits2_lt; lia);
        subst D s; lia].
    assert (q * 2 ^ (d2 - 1) < 2 ^ (d1 + s - d2 + 1) * 2 ^ (d2 - 1)).
    { rewrite <- Z.pow_add_r by lia.
      replace (d1 + s - d2 + 1 + (d2 - 1)) with (d1 + s) by lia. nia. }
    assert (0 < 2 ^ (d2 - 1)) by (apply Z.pow_pos_nonneg; lia). nia. }
  assert (Hlower : 0 < q -> e' <= fexp64 (Zdigits2 q + e')).
  { intros Hq.
    assert (Hdq : d1 - d2 + s <= Zdigits2 q).
    { pose proof (Zdigits2_pos q Hq).
      destruct (Z_le_gt_dec (d1 - d2 + s) 0); [lia|].
      assert (d1 - d2 + s - 1 < Zdigits2 q); [|lia].
      apply Zdigits2_le; [assumption|].
      assert (2 ^ (d1 - 1 + s) = 2 ^ (d1 - d2 + s - 1) * 2 ^ d2).
      { rewrite <- Z.pow_add_r by lia. f_equal. lia. }
      assert (0 < 2 ^ (d1 - d2 + s - 1)) by (apply Z.pow_pos_nonneg; lia).
      nia. }
    pose proof (fexp64_eq (Zdigits2 q + e')). subst D s. lia. }
  assert (Hzero : q = 0 -> e' <= -1074).
  { intros Hq. rewrite Hq in Hqm.
    assert (d1 - 1 + s < d2).
    { apply (Z.pow_lt_mono_r_iff 2); try lia. }
    subst D s. lia. }
  split.
  - pose proof (Zdigits2_pos q) as Hqp.
    assert (Hq00 : q = 0 -> Zdigits2 q = 0) by (intros ->; reflexivity).
    assert (HB' : B = Z.max (Bx - (d2 + ey) + 1) (-1073)) by reflexivity.
    apply binary_round_aux_mag; subst D; lia.
  - apply binary_round_aux_normal; assumption.
Qed.


(** Rounding to nearest does not go below an integer [N <= 2^52] that the
    exact value reaches. *)
Lemma binary_round_aux_ge (N m e : Z) (l : location) :
  0 < N <= 2 ^ 52 -> 0 < m ->
  N * 2 ^ Z.max 0 (- e) <= m * 2 ^ Z.max 0 e ->
  ge_int N (binary_round_aux Py.prec Py.emax false m e l).
Proof.
  intros HN Hm Hv.
  destruct (binary_round_aux_spec false m e l ltac:(lia)) as (m1 & Hb & ->).
  cbv zeta in Hb.
  set (d := Zdigits2 m) in *.
  assert (Hd : 0 < d) by (apply Zdigits2_pos; lia).
  assert (Hml : 2 ^ (d - 1) <= m) by (apply Zdigits2_le; lia).
  assert (Hmu : m < 2 ^ d) by (apply Zdigits2_lt; lia).
  assert (Hde : 1 <= d + e).
  { destruct (Z_lt_le_dec (d + e) 1) as [Hlt|]; [exfalso|assumption].
    rewrite (Z.max_r 0 (- e)), (Z.max_l 0 e), Z.pow_0_r in Hv by lia.
    assert (2 ^ d <= 2 ^ (- e)) by (apply Z.pow_le_mono_r; lia). nia. }
  pose proof (fexp64_eq (d + e)) as Hf1.
  set (k1 := Z.max 0 (fexp64 (d + e) - e)) in *.
  assert (Hk1 : k1 = Z.max 0 (d - 53)) by lia.
  assert (Hq1 : 0 < m / 2 ^ k1).
  { apply Z.div_str_pos. split; [apply Z.pow_pos_nonneg; lia|].
    etransitivity; [|exact Hml]. apply Z.pow_le_mono_r; lia. }
  assert (Hdq1 : Zdigits2 (m / 2 ^ k1) = d - k1) by (apply Zdigits2_div_pow2; lia).
  assert (Hm1 : 0 < m1) by lia.
  assert (Hd1l : d - k1 <= Zdigits2 m1) by (rewrite <- Hdq1; apply Zdigits2_mono; lia).
  assert (Hd1u : Zdigits2 m1 <= d - k1 + 1).
  { rewrite <- Hdq1. etransitivity; [apply Zdigits2_mono with (b := m / 2 ^ k1 + 1); lia|].
    apply Zdigits2_succ_le; lia. }
  pose proof (fexp64_eq (Zdigits2 m1 + (e + k1))) as Hf2.
  set (k2 := Z.max 0 (fexp64 (Zdigits2 m1 + (e + k1)) - (e + k1))) in *.
  assert (Hk2 : k2 = Z.max 0 (Zdigits2 m1 - 53)) by lia.
  assert (Hp : 0 < m1 / 2 ^ k2).
  { apply Z.div_str_pos. split; [apply Z.pow_pos_nonneg; lia|].
    assert (2 ^ (Zdigits2 m1 - 1) <= m1) by (apply Zdigits2_le; lia).
    etransitivity; [|eassumption]. apply Z.pow_le_mono_r; lia. }
  assert (Hdp : Zdigits2 (m1 / 2 ^ k2) = Zdigits2 m1 - k2) by (apply Zdigits2_div_pow2; lia).
  assert (Hfloor : m / 2 ^ (k1 + k2) <= m1 / 2 ^ k2).
  { rewrite Z.pow_add_r, <- Zdiv_Zdiv by lia.
    apply Z.div_le_mono; [apply Z.pow_pos_nonneg|]; lia. }
  destruct (m1 / 2 ^ k2) as [|p|p] eqn:E; try lia.
  destruct (e + k1 + k2 <=? Py.emax - Py.prec); [|exact I].
  unfold ge_int.
  destruct (Z.eq_dec (k1 + k2) 0) as [HK|HK].
  - assert (k1 = 0) by lia. assert (k2 = 0) by lia.
    replace (e + k1 + k2) with e by lia.
    assert (Hmp : m <= Zpos p).
    { rewrite H, Z.pow_0_r, Z.div_1_r in Hb. rewrite H0, Z.pow_0_r, Z.div_1_r in E. lia. }
    etransitivity; [exact Hv|].
    apply Z.mul_le_mono_nonneg_r; [apply Z.pow_nonneg|]; lia.
  - assert (Hfull : 2 ^ 52 <= Zpos p) by (apply Zdigits2_le; lia).
    destruct (Z_le_gt_dec 0 (e + k1 + k2)) as [Hpos|Hneg].
    + rewrite (Z.max_l 0 (- (e + k1 + k2))), Z.pow_0_r by lia.
      assert (0 < 2 ^ Z.max 0 (e + k1 + k2)) by (apply Z.pow_pos_nonneg; lia). nia.
    + rewrite (Z.max_r 0 (- (e + k1 + k2))), (Z.max_l 0 (e + k1 + k2)), Z.pow_0_r by lia.
      rewrite (Z.max_r 0 (- e)), (Z.max_l 0 e), Z.pow_0_r in Hv by lia.
      rewrite Z.mul_1_r in *.
      etransitivity; [|exact Hfloor].
      apply Z.div_le_lower_bound; [apply Z.pow_pos_nonneg; lia|].
      rewrite Z.mul_comm, <- Z.mul_assoc, <- Z.pow_add_r by lia.
      replace (- (e + k1 + k2) + (k1 + k2)) with (- e) by lia. exact Hv.
Qed.

Lemma int_ge (N : Z) (x : spec_float) (B : Z) :
  0 < N -> ge_int N x -> mag_le B x -> exists z, Py.int x = Ok z /\ N <= z.
Proof.
  intros HN Hg Hm. destruct x as [s|s| |s p e]; try contradiction.
  destruct s; try contradiction. unfold ge_int in Hg. simpl Py.int.
  eexists; split; [reflexivity|]. unfold cond_Zopp.
  destruct (Z_le_gt_dec 0 e) as [He|He].
  - rewrite Z.shiftl_mul_pow2 by lia.
    rewrite (Z.max_l 0 (- e)), (Z.max_r 0 e), Z.pow_0_r in Hg by lia. lia.
  - rewrite <- (Z.opp_involutive e), Z.shiftl_opp_r, Z.shiftr_div_pow2 by lia.
    rewrite (Z.max_r 0 (- e)), (Z.max_l 0 e), Z.pow_0_r in Hg by lia.
    apply Z.div_le_lower_bound; [apply Z.pow_pos_nonneg; lia|lia].
Qed.

(** A float above the literal [1.3], scaled by [1000], is at least [1300]. *)
Lemma fgt_1_3_thousand (x : spec_float) :
  Py.fgt x Py.f1_3 = true -> normal_or_small x ->
  ge_int 1300 (Py.fmul x Py.f1000).
Proof.
  intros Hgt Hn. rewrite literal_1_3 in Hgt. rewrite literal_1000.
  unfold Py.fgt, SFltb, SFcompare in Hgt.
  destruct x as [s|s| |s p e]; try discriminate.
  - destruct s; [discriminate|exact I].
  - destruct s; [discriminate|].
    unfold Py.fmul, SFmul. simpl xorb.
    apply binary_round_aux_ge; try lia.
    rewrite Pos2Z.inj_mul. unfold normal_or_small in Hn.
    destruct (-52 ?= e) eqn:Hc; try discriminate.
    + apply Z.compare_eq in Hc. subst e.
      assert (5854679515581645 < p)%positive.
      { apply Pos.compare_lt_iff.
        destruct (Pos.compare_cont Eq 5854679515581645 p) eqn:Hp; try discriminate.
        exact Hp. }
      change (Z.max 0 (- (-52 + -43))) with 95. change (Z.max 0 (-52 + -43)) with 0.
      rewrite Z.pow_0_r. lia.
    + rewrite Z.compare_lt_iff in Hc.
      assert (Hp : 2 ^ 52 <= Zpos p) by (apply Hn; lia).
      destruct (Z_le_gt_dec (e + -43) 0) as [He|He].
      * rewrite (Z.max_r 0 (- (e + -43))), (Z.max_l 0 (e + -43)), Z.pow_0_r by lia.
        assert (2 ^ (- (e + -43)) <= 2 ^ 94) by (apply Z.pow_le_mono_r; lia). lia.
      * rewrite (Z.max_l 0 (- (e + -43))), (Z.max_r 0 (e + -43)), Z.pow_0_r by lia.
        assert (0 < 2 ^ (e + -43)) by (apply Z.pow_pos_nonneg; lia). nia.
Qed.

(** ** The scheduler's arithmetic never leaves the finite floats *)

Ltac fin_const :=
  split; vm_compute; try exact I; intros; discriminate.

Lemma int_ok (B : Z) (x : spec_float) : mag_le B x -> exists z, Py.int x = Ok z.
Proof. destruct x; simpl; try contradiction; eauto. Qed.

Lemma to_float_int64 (z : Z) :
  int64 z -> Py.to_float z = Ok (Py.float_of_Z z) /\ fin 64 (Py.float_of_Z z).
Proof.
  intros Hz. pose proof (float_of_Z_fin z Hz) as Hf. split; [|exact Hf].
  destruct Hf as [Hm _]. eapply to_float_ok; eauto.
Qed.

Lemma ease_fin (z : Z) : int64 z -> fin 56 (Py.fdiv (Py.float_of_Z z) Py.f1000).
Proof.
  intros Hz. destruct (float_of_Z_fin z Hz) as [Hm _]. rewrite literal_1000.
  apply (fdiv_fin _ false 8796093022208000 (-43) 64 Hm). vm_compute. discriminate.
Qed.

Lemma to_float_1000 : Py.to_float 1000 = Ok Py.f1000.
Proof. reflexivity. Qed.

Lemma max_fin (B : Z) (x : spec_float) : fin B x -> 1 <= B -> fin B (Py.max Py.f1_3 x).
Proof.
  intros Hx HB. unfold Py.max. destruct (Py.fgt x Py.f1_3); [exact Hx|].
  apply fin_weaken with 1; [fin_const | exact HB].
Qed.

Lemma thousandths_max (B : Z) (x : spec_float) :
  fin B x -> B <= 900 ->
  exists z, thousandths (Py.max Py.f1_3 x) = Ok z /\ 1300 <= z.
Proof.
  intros Hx HB. unfold Py.max. destruct (Py.fgt x Py.f1_3) eqn:Hgt.
  - unfold thousandths. rewrite to_float_1000. cbn [bind].
    destruct Hx as [Hm Hn].
    apply (int_ge 1300 _ (Z.max B 0 + 10 + 1)); [lia| |].
    + apply fgt_1_3_thousand; assumption.
    + apply fmul_mag; try lia.
      * eapply mag_le_weaken; [exact Hm|lia].
      * rewrite literal_1000. vm_compute. discriminate.
  - exists 1300. split; [reflexivity|lia].
Qed.

(** The correction term of a passing review is one of three constants. *)
Lemma pass_ease_delta (q : Z) :
  3 <= q <= 5 ->
  exists dl, fin 0 dl /\ forall e, pass_ease e q = Ok (Py.fadd e dl).
Proof.
  intros Hq.
  assert (Hc : q = 3 \/ q = 4 \/ q = 5) by lia.
  destruct Hc as [-> | [-> | ->]]; unfold pass_ease.
  - change (Py.to_float (5 - 3)) with (Ok (Py.float_of_Z 2)). cbn [bind].
    eexists; split; [|intros e; reflexivity]. fin_const.
  - change (Py.to_float (5 - 4)) with (Ok (Py.float_of_Z 1)). cbn [bind].
    eexists; split; [|intros e; reflexivity]. fin_const.
  - change (Py.to_float (5 - 5)) with (Ok (Py.float_of_Z 0)). cbn [bind].
    eexists; split; [|intros e; reflexivity]. fin_const.
Qed.

Lemma sm2_fail (clk : clock) (c : card) (q : Z) :
  q < 3 -> int64 (c_factor c) ->
  exists z,
    thousandths
      (Py.max Py.f1_3
         (Py.fsub (Py.fdiv (Py.float_of_Z (c_factor c)) Py.f1000) Py.f0_2))
      = Ok z /\
    1300 <= z /\
    sm2 clk c q =
      Ok {| new_type := 1;  new_queue := 1;  due := current_time clk + 60;
            new_interval := 1;  new_factor := z;
            reps := c_reps c;  lapses := c_lapses c + 1;  left := 3 |}.
Proof.
  intros Hq Hf.
  destruct (to_float_int64 _ Hf) as [Hto _].
  pose proof (ease_fin _ Hf) as He.
  assert (Hx : fin 58 (Py.fsub (Py.fdiv (Py.float_of_Z (c_factor c)) Py.f1000) Py.f0_2)).
  { apply (fsub_fin _ _ 56 (-2)); [exact He | fin_const | lia | lia]. }
  destruct (thousandths_max 58 _ Hx ltac:(lia)) as (z & Hz & Hge).
  exists z. repeat split; try assumption.
  unfold sm2. rewrite Hto. cbn [bind].
  apply Z.ltb_lt in Hq. rewrite Hq. rewrite Hz. reflexivity.
Qed.

Lemma sm2_pass (clk : clock) (c : card) (q : Z) :
  3 <= q <= 5 -> card_wf c ->
  exists e z i,
    pass_ease (Py.fdiv (Py.float_of_Z (c_factor c)) Py.f1000) q = Ok e /\
    thousandths (Py.max Py.f1_3 e) = Ok z /\
    1300 <= z /\
    (if c_ivl c =? 0 then Ok 1
     else if c_ivl c =? 1 then Ok 6
     else (let* f := Py.to_float (c_ivl c) in
           Py.int (Py.fmul f (Py.max Py.f1_3 e)))) = Ok i /\
    sm2 clk c q =
      Ok {| new_type := 2;  new_queue := 2;  due := today clk + i;
            new_interval := i;  new_factor := z;
            reps := c_reps c + 1;  lapses := c_lapses c;  left := 0 |}.
Proof.
  intros Hq [Hf Hi].
  destruct (to_float_int64 _ Hf) as [Hto _].
  destruct (to_float_int64 _ Hi) as [Htoi [Hmi _]].
  pose proof (ease_fin _ Hf) as He.
  destruct (pass_ease_delta q Hq) as (dl & Hdl & Hpe).
  set (ease := Py.fdiv (Py.float_of_Z (c_factor c)) Py.f1000) in *.
  assert (Hx : fin 58 (Py.fadd ease dl)).
  { apply (fadd_fin _ _ 56 0); [exact He | exact Hdl | lia | lia]. }
  destruct (thousandths_max 58 _ Hx ltac:(lia)) as (z & Hz & Hge).
  pose proof (max_fin 58 _ Hx ltac:(lia)) as [Hmm _].
  assert (Hint : exists i,
    (if c_ivl c =? 0 then Ok 1
     else if c_ivl c =? 1 then Ok 6
     else (let* f := Py.to_float (c_ivl c) in
           Py.int (Py.fmul f (Py.max Py.f1_3 (Py.fadd ease dl))))) = Ok i).
  { destruct (c_ivl c =? 0); [eauto|]. destruct (c_ivl c =? 1); [eauto|].
    rewrite Htoi. cbn [bind].
    apply (int_ok (64 + 58 + 1)). apply fmul_mag; try lia; assumption. }
  destruct Hint as (i & Hi').
  exists (Py.fadd ease dl), z, i. repeat split; try assumption; [apply Hpe|].
  unfold sm2. rewrite Hto. cbn [bind]. fold ease.
  assert (Hq' : (q <? 3) = false) by (apply Z.ltb_ge; lia). rewrite Hq'.
  rewrite Hpe. cbn [bind]. rewrite Hi'. cbn [bind]. rewrite Hz. reflexivity.
Qed.


(** ** The scheduler on the database *)

Lemma select_card_id (cid : Z) (cs : list card) (c : card) :
  select_card cid cs = Some c -> c_id c = cid.
Proof.
  unfold select_card. intros H. apply find_some in H. destruct H as [_ H].
  apply Z.eqb_eq in H. exact H.
Qed.


(** The outcomes once the new schedule is computed: the [UPDATE] is applied
    in every case, the log row is appended unless its id is taken. *)
Lemma apply_scheduled (clk : clock) (d : db) (cid q : Z) (c : card) (s : schedule) :
  0 <= q <= 5 -> select_card cid (db_cards d) = Some c -> sm2 clk c q = Ok s ->
  let e := log_entry clk cid q (c_ivl c) s in
  let d1 := set_cards d (update_cards clk s cid (db_cards d)) in
  let d2 := set_revlog d1 (db_revlog d ++ [e])%list in
  let taken := existsb (fun r => r_id r =? review_id clk) (db_revlog d) in
  let date_ok := (-719162 <=? due s) && (due s <=? 2932896) in
  apply_sm2_algorithm clk d cid q =
    if taken then (Raise IntegrityError, d1)
    else if new_queue s =? 1 then (Ok (InMinutes (new_interval s)), d2)
    else if date_ok then (Ok (OnDate (due s)), d2)
    else (Raise OverflowError, d2).
Proof.
  intros Hq Hsel Hs. cbv zeta. unfold apply_sm2_algorithm.
  assert (Hr : ((q <? 0) || (q >? 5)) = false).
  { apply orb_false_iff. split; [apply Z.ltb_ge; lia|]. rewrite Z.gtb_ltb. apply Z.ltb_ge; lia. }
  rewrite Hr, Hsel, Hs. unfold insert_revlog. cbn [db_revlog set_cards log_entry r_id].
  destruct (existsb _ (db_revlog d)); [reflexivity|].
  destruct (new_queue s =? 1); [reflexivity|].
  unfold date_from_days. destruct ((-719162 <=? due s) && (due s <=? 2932896)); reflexivity.
Qed.


Lemma apply_invalid (clk : clock) (d : db) (cid q : Z) :
  q < 0 \/ 5 < q \/ select_card cid (db_cards d) = None ->
  apply_sm2_algorithm clk d cid q = (Raise ValueError, d).
Proof.
  intros H. unfold apply_sm2_algorithm.
  destruct ((q <? 0) || (q >? 5)) eqn:Hr; [reflexivity|].
  apply orb_false_iff in Hr. destruct Hr as [H1 H2].
  apply Z.ltb_ge in H1. rewrite Z.gtb_ltb in H2. apply Z.ltb_ge in H2.
  destruct H as [H|[H|H]]; try lia. rewrite H. reflexivity.
Qed.

(** ** C1: the interval of a passing review *)




(** The scenarios of a first and of a second success. *)
Example first_success_interval_1 :
  option_map (fun c => (c_ivl c, c_type c, c_queue c))
    (select_card 1 (db_cards (snd (apply_sm2_algorithm sample_clock
       (sample_db (sample_card 0 2500) (sample_note sample_qa) []) 1 5))))
  = Some (1, 2, 2).
Proof. reflexivity. Qed.

Example second_success_interval_6 :
  option_map c_ivl
    (select_card 1 (db_cards (snd (apply_sm2_algorithm sample_clock
       (sample_db (sample_card 1 2500) (sample_note sample_qa) []) 1 5))))
  = Some 6.
Proof. reflexivity. Qed.

(** [calculate_next_review] of the server does round, but the product of the
    interval and the old ease, and it chooses by the repetition count. *)
Example calculate_next_review_rounds :
  option_map fst
    match calculate_next_review
            {| pc_ease_factor := Py.literal 26 10;  pc_interval := 6;
               pc_repetitions := 2 |} 5 with
    | Ok r => Some r
    | Raise _ => None
    end = Some 16.
Proof. reflexivity. Qed.

(** ** C2: the fail branch *)



(** The scenario of the specification: interval 6, ease 2.5, quality 2. *)
Example fail_scenario :
  option_map (fun c => (c_ivl c, c_factor c, c_type c, c_queue c, c_lapses c, c_left c))
    (select_card 1 (db_cards (snd (apply_sm2_algorithm sample_clock
       (sample_db (sample_card 6 2500) (sample_note sample_qa) []) 1 2))))
  = Some (1, 2300, 1, 1, 1, 3).
Proof. reflexivity. Qed.

(** The arithmetic is binary64: [2.4 - 0.2] is [2.1999999999999997], and the
    stored thousandths are truncated. *)
Example fail_2400_stores_2199 :
  option_map c_factor
    (select_card 1 (db_cards (snd (apply_sm2_algorithm sample_clock
       (sample_db (sample_card 6 2400) (sample_note sample_qa) []) 1 2))))
  = Some 2199.
Proof. reflexivity. Qed.

(** ** C3: the ease factor never falls below 1.3 *)



(** ** C4: errors *)




(** ** C5: the review-log entry *)




(** ** C6: the due-card query *)

(** C6, as stated, fails: a review card that is due, whose note holds a
    single field, is not returned. *)
Lemma C6_due_card_dropped :
  card_is_due 19675 (sample_card 6 2500) = true /\
  get_cards_due_today 19675 (sample_db (sample_card 6 2500) (sample_note "Q") []) = [].
Proof. split; reflexivity. Qed.

(** C6 (amended): the query returns exactly the pairs of a card and a note
    with [note.id = card.nid] where the card is in the new queue, or in the
    review queue with [due <= as_of], and the note's field blob splits into
    at least two fields; each is returned with the card id and the first two
    fields. A card of the learning queue never appears. *)
Theorem C6_due_cards (as_of : Z) (d : db) (r : due_card) :
  In r (get_cards_due_today as_of d) <->
  exists c n,
    In c (db_cards d) /\ In n (db_notes d) /\ c_nid c = n_id n /\
    (c_queue c = 0 \/ (c_queue c = 2 /\ c_due c <= as_of)) /\
    (2 <= List.length (Str.split sep (n_flds n)))%nat /\
    r = {| dc_id := c_id c;
           dc_question := nth 0 (Str.split sep (n_flds n)) "";
           dc_answer := nth 1 (Str.split sep (n_flds n)) "" |}.
Proof.
  unfold get_cards_due_today, select_due. rewrite in_flat_map. split.
  - intros ((cid & flds) & Hrow & Hr). cbn [fst snd] in Hr.
    apply in_flat_map in Hrow. destruct Hrow as (c & Hc & Hrow).
    destruct (card_is_due as_of c) eqn:Hdue; [|contradiction].
    apply in_map_iff in Hrow. destruct Hrow as (n & [= <- <-] & Hn).
    apply filter_In in Hn. destruct Hn as [Hn Hjoin]. apply Z.eqb_eq in Hjoin.
    destruct (2 <=? Z.of_nat (List.length (Str.split sep (n_flds n)))) eqn:Hlen;
      [|contradiction].
    destruct Hr as [<-|[]]. apply Z.leb_le in Hlen.
    exists c, n. repeat split; try assumption; try lia.
    unfold card_is_due in Hdue. apply orb_true_iff in Hdue.
    destruct Hdue as [H|H]; [left; apply Z.eqb_eq; exact H|right].
    apply andb_true_iff in H. destruct H as [H1 H2].
    apply Z.eqb_eq in H1. apply Z.leb_le in H2. auto.
  - intros (c & n & Hc & Hn & Hjoin & Hq & Hlen & ->).
    exists (c_id c, n_flds n). cbn [fst snd]. split.
    + apply in_flat_map. exists c. split; [exact Hc|].
      assert (Hdue : card_is_due as_of c = true).
      { unfold card_is_due. apply orb_true_iff.
        destruct Hq as [H|[H1 H2]]; [left; apply Z.eqb_eq; exact H|right].
        apply andb_true_iff. split; [apply Z.eqb_eq|apply Z.leb_le]; assumption. }
      rewrite Hdue. apply in_map_iff. exists n. split; [reflexivity|].
      apply filter_In. split; [exact Hn|apply Z.eqb_eq; exact Hjoin].
    + assert (Hl : (2 <=? Z.of_nat (List.length (Str.split sep (n_flds n)))) = true)
        by (apply Z.leb_le; lia).
      rewrite Hl. left. reflexivity.
Qed.

(** ** C7: model ids *)

Lemma str_inj (a b : Z) : Py.str a = Py.str b -> a = b.
Proof.
  unfold Py.str. intros H. apply DecimalZ.to_int_inj.
  assert (Hn : forall z, NilZero.int_of_string (NilZero.string_of_int (Z.to_int z))
                         = Some (Z.to_int z)).
  { intros z. apply NilZero.isi; destruct z; simpl; try discriminate;
      intros [= E]; exact (Unsigned.to_uint_nonnil _ E). }
  apply (f_equal NilZero.int_of_string) in H. rewrite !Hn in H. congruence.
Qed.

Lemma dict_get_set_same {V : Type} (k : string) (v : V) (d : dict V) :
  dict_get k (dict_set k v d) = Some v.
Proof.
  unfold dict_get. induction d as [|[k' v'] d IH]; simpl.
  - rewrite String.eqb_refl. reflexivity.
  - destruct (String.eqb k' k) eqn:E; simpl.
    + rewrite String.eqb_refl. reflexivity.
    + rewrite E. exact IH.
Qed.

Lemma dict_get_set_other {V : Type} (k k' : string) (v : V) (d : dict V) :
  k <> k' -> dict_get k' (dict_set k v d) = dict_get k' d.
Proof.
  intros Hne. unfold dict_get. induction d as [|[k0 v0] d IH]; simpl.
  - apply String.eqb_neq in Hne. rewrite Hne. reflexivity.
  - destruct (String.eqb k0 k) eqn:E; simpl.
    + apply String.eqb_eq in E. subst k0.
      apply String.eqb_neq in Hne. rewrite Hne. reflexivity.
    + destruct (String.eqb k0 k'); [reflexivity|exact IH].
Qed.

(** C7, as stated, fails: two invocations that read the same millisecond
    return the same id, and the second model replaces the first in the
    document. *)
Lemma C7_same_millisecond_collides :
  fst (add_model (sample_model_clock 1700000000123)
         (sample_db (sample_card 6 2500) (sample_note sample_qa) [])
         "Custom Model" ["Question"; "Answer"] sample_templates)
  = fst (add_model (sample_model_clock 1700000000123)
           (snd (add_model (sample_model_clock 1700000000123)
                   (sample_db (sample_card 6 2500) (sample_note sample_qa) [])
                   "Custom Model" ["Question"; "Answer"] sample_templates))
           "Custom Model" ["Question"; "Answer"] sample_templates) /\
  List.length
    (col_models (db_col (snd (add_model (sample_model_clock 1700000000123)
       (snd (add_model (sample_model_clock 1700000000123)
               (sample_db (sample_card 6 2500) (sample_note sample_qa) [])
               "Custom Model" ["Question"; "Answer"] sample_templates))
       "Custom Model" ["Question"; "Answer"] sample_templates)))) = 1%nat.
Proof. split; reflexivity. Qed.

(** C7 (amended): two invocations of [add_model] whose millisecond readings
    differ return distinct ids, and both models are in the document
    afterwards, also when name, fields and templates are the same. *)
Theorem C7_distinct_ids (k1 k2 : model_clock) (d : db) (name1 name2 : string)
    (fields1 fields2 : list string) (templates1 templates2 : list template_in) :
  id_time_ms k1 <> id_time_ms k2 ->
  fst (add_model k1 d name1 fields1 templates1)
    <> fst (add_model k2 (snd (add_model k1 d name1 fields1 templates1))
              name2 fields2 templates2) /\
  dict_get (Py.str (id_time_ms k1))
    (col_models (db_col (snd (add_model k2
       (snd (add_model k1 d name1 fields1 templates1)) name2 fields2 templates2))))
    = Some (new_model k1 name1 fields1 templates1) /\
  dict_get (Py.str (id_time_ms k2))
    (col_models (db_col (snd (add_model k2
       (snd (add_model k1 d name1 fields1 templates1)) name2 fields2 templates2))))
    = Some (new_model k2 name2 fields2 templates2).
Proof.
  intros Hne. cbn. split; [exact Hne|]. split.
  - rewrite dict_get_set_other by (intros E; apply str_inj in E; congruence).
    apply dict_get_set_same.
  - apply dict_get_set_same.
Qed.

Lemma C7_distinct_ids_witness :
  dict_get "1700000000123"
    (col_models (db_col (snd (add_model (sample_model_clock 1700000000124)
       (snd (add_model (sample_model_clock 1700000000123)
               (sample_db (sample_card 6 2500) (sample_note sample_qa) [])
               "Custom Model" ["Question"; "Answer"] sample_templates))
       "Custom Model" ["Question"; "Answer"] sample_templates))))
  = Some (new_model (sample_model_clock 1700000000123)
            "Custom Model" ["Question"; "Answer"] sample_templates).
Proof.
  apply (C7_distinct_ids (sample_model_clock 1700000000123)
           (sample_model_clock 1700000000124)
           (sample_db (sample_card 6 2500) (sample_note sample_qa) [])
           "Custom Model" "Custom Model" ["Question"; "Answer"] ["Question"; "Answer"]
           sample_templates sample_templates).
  simpl. lia.
Defined.

(** ** C8: the archive entries *)

(** [AnkiFlashcardApp.export_apkg] with one media file: three entries, the
    manifest maps ["0"] to the file name. *)
Lemma export_apkg_one_media (filename data : string) (d : db) :
  export_apkg [(filename, data)] d =
  Done [ ("collection.anki2", Collection d);
         ("media", Manifest [("0", filename)]);
         ("0", Blob data) ].
Proof. reflexivity. Qed.

Lemma export_apkg_one_media_names (filename data : string) (d : db) :
  exists z, export_apkg [(filename, data)] d = Done z /\
            List.length z = 3%nat /\ NoDup (map fst z).
Proof.
  eexists. split; [apply export_apkg_one_media|]. split; [reflexivity|].
  cbn. repeat constructor; cbn; intuition discriminate.
Qed.

Lemma dict_get_In {V : Type} (k : string) (d : dict V) :
  In k (dict_keys d) -> exists v, dict_get k d = Some v.
Proof.
  unfold dict_get, dict_keys. induction d as [|[k' v'] d IH]; simpl; [contradiction|].
  intros [H|H].
  - subst k'. rewrite String.eqb_refl. simpl. eauto.
  - destruct (String.eqb k' k); simpl; eauto.
Qed.

Lemma dict_set_keys_keep {V : Type} (k k' : string) (v : V) (d : dict V) :
  In k' (dict_keys d) -> In k' (dict_keys (dict_set k v d)).
Proof.
  unfold dict_keys. induction d as [|[k0 v0] d IH]; simpl; [contradiction|].
  intros [H|H]; destruct (String.eqb k0 k) eqn:E; simpl; auto.
  apply String.eqb_eq in E. left. congruence.
Qed.

Lemma dict_set_keys_new {V : Type} (k : string) (v : V) (d : dict V) :
  In k (dict_keys (dict_set k v d)).
Proof.
  unfold dict_keys. induction d as [|[k0 v0] d IH]; simpl; [auto|].
  destruct (String.eqb k0 k); simpl; auto.
Qed.

Lemma extract_media_keys (rows : list media_row) (dir : directory)
    (m : dict string) (k : string) :
  In k (dict_keys dir) -> In k (dict_keys (fst (extract_media rows dir m))).
Proof.
  unfold extract_media. revert dir m.
  induction rows as [|r rows IH]; intros dir m Hk; simpl; [exact Hk|].
  destruct (truthy (md_data r) && truthy (md_filename r)).
  - apply IH. simpl. apply dict_set_keys_keep. exact Hk.
  - apply IH. exact Hk.
Qed.

Lemma zip_write_all_names (dir : directory) (names : list string) :
  forall z : archive,
    (forall n, In n names -> In n (dict_keys dir)) ->
    exists z', zip_write_all dir names z = Done z' /\
               map fst z' = (map fst z ++ names)%list.
Proof.
  induction names as [|n names IH]; intros z Hin; simpl.
  - exists z. rewrite app_nil_r. auto.
  - destruct (dict_get_In n dir (Hin n (or_introl eq_refl))) as (c & Hc).
    unfold zip_write. rewrite Hc.
    destruct (IH (z ++ [(n, c)])%list) as (z' & Hz' & Hn); [intros; apply Hin; right; auto|].
    exists z'. split; [exact Hz'|]. rewrite Hn, map_app, <- app_assoc. reflexivity.
Qed.

(** [AnkiSM2.export_to_apkg] lists the staging directory, which holds the
    collection file and the manifest too: whatever the database and the
    order of the listing, both are written to the archive a second time. *)
Lemma export_to_apkg_names (listdir : directory -> list string) (d : db) :
  (forall dir, Permutation (listdir dir) (dict_keys dir)) ->
  exists z dir,
    export_to_apkg listdir d = Done z /\
    map fst z = "collection.anki2" :: "media" :: listdir dir /\
    In "collection.anki2" (listdir dir) /\ In "media" (listdir dir).
Proof.
  intros Hperm. unfold export_to_apkg.
  set (dir0 := dict_set "media" (Manifest []) (dict_set "collection.anki2" (Collection d) [])).
  assert (H0 : In "collection.anki2" (dict_keys dir0) /\ In "media" (dict_keys dir0))
    by (cbn; auto).
  set (st := match db_media d with
             | Some rows => extract_media rows dir0 []
             | None => (dir0, [])
             end).
  assert (H1 : In "collection.anki2" (dict_keys (fst st)) /\ In "media" (dict_keys (fst st))).
  { subst st. destruct (db_media d) as [rows|]; [|exact H0].
    split; apply extract_media_keys; apply H0. }
  destruct st as [dir1 media_dict]. cbn [fst] in H1.
  set (dir := dict_set "media" (Manifest media_dict) dir1).
  assert (H2 : In "collection.anki2" (dict_keys dir) /\ In "media" (dict_keys dir)).
  { split; [apply dict_set_keys_keep; apply H1 | apply dict_set_keys_new]. }
  destruct (dict_get_In _ _ (proj1 H2)) as (c1 & Hc1).
  destruct (dict_get_In _ _ (proj2 H2)) as (c2 & Hc2).
  unfold zip_write at 1. rewrite Hc1. unfold zip_write at 1. rewrite Hc2.
  destruct (zip_write_all_names dir (listdir dir)
              ([] ++ [("collection.anki2", c1)] ++ [("media", c2)])%list)
    as (z & Hz & Hn).
  { intros n Hn. eapply Permutation_in; [apply Hperm|exact Hn]. }
  exists z, dir. split; [exact Hz|]. split; [exact Hn|].
  split; eapply Permutation_in; try (apply Permutation_sym; apply Hperm); apply H2.
Qed.

Lemma export_to_apkg_repeats (listdir : directory -> list string) (d : db) :
  (forall dir, Permutation (listdir dir) (dict_keys dir)) ->
  exists z, export_to_apkg listdir d = Done z /\ ~ NoDup (map fst z).
Proof.
  intros Hperm. destruct (export_to_apkg_names listdir d Hperm) as (z & dir & Hz & Hn & Hc & _).
  exists z. split; [exact Hz|]. rewrite Hn. intros Hnd.
  inversion Hnd as [|x l Hnotin _]; subst. apply Hnotin. right. exact Hc.
Qed.

(** C8 on [AnkiSM2.export_to_apkg]: a database whose [media] table holds one
    file gives an archive of five entries, two of them named
    ["collection.anki2"] and two named ["media"]. *)
Theorem C8_export_to_apkg_five_entries :
  exists z,
    export_to_apkg dict_keys sample_media_db = Done z /\
    map fst z = ["collection.anki2"; "media"; "collection.anki2"; "media"; "0"] /\
    List.length z = 5%nat /\
    ~ NoDup (map fst z).
Proof.
  eexists. split; [reflexivity|]. split; [reflexivity|]. split; [reflexivity|].
  cbn. intros H. inversion H as [|x l Hnotin _]; subst. apply Hnotin. cbn. auto.
Qed.

(** ** C9: what one invocation leaves alone *)

Lemma update_cards_frame (clk : clock) (s : schedule) (cid : Z) (cs : list card) :
  Forall2 (fun c c' => same_identity c c' /\ (c_id c <> cid -> c' = c))
          cs (update_cards clk s cid cs).
Proof.
  induction cs as [|a cs IH]; simpl; constructor; [|exact IH].
  destruct (c_id a =? cid) eqn:E.
  - apply Z.eqb_eq in E. split; [repeat split|]. intros H. contradiction.
  - split; [repeat split|]. reflexivity.
Qed.

Lemma cards_frame_refl (cid : Z) (cs : list card) :
  Forall2 (fun c c' => same_identity c c' /\ (c_id c <> cid -> c' = c)) cs cs.
Proof.
  induction cs; constructor; auto. split; [repeat split|reflexivity].
Qed.

(** C9: one invocation leaves the collection row, the notes and the media
    untouched; in the card table every row keeps id, note id, deck id and
    template order (and usn, odue, odid, flags, data), and every row other
    than the reviewed card is unchanged; the review log only grows, by at
    most one row. *)
Theorem C9_frame (clk : clock) (d : db) (cid q : Z) :
  db_col (snd (apply_sm2_algorithm clk d cid q)) = db_col d /\
  db_notes (snd (apply_sm2_algorithm clk d cid q)) = db_notes d /\
  db_media (snd (apply_sm2_algorithm clk d cid q)) = db_media d /\
  Forall2 (fun c c' => same_identity c c' /\ (c_id c <> cid -> c' = c))
          (db_cards d) (db_cards (snd (apply_sm2_algorithm clk d cid q))) /\
  exists l,
    db_revlog (snd (apply_sm2_algorithm clk d cid q)) = (db_revlog d ++ l)%list /\
    (List.length l <= 1)%nat.
Proof.
  unfold apply_sm2_algorithm.
  assert (Hnil : exists l, db_revlog d = (db_revlog d ++ l)%list /\ (List.length l <= 1)%nat)
    by (exists []; rewrite app_nil_r; auto).
  destruct ((q <? 0) || (q >? 5));
    [cbn; repeat split; auto using cards_frame_refl|].
  destruct (select_card cid (db_cards d)) as [c|];
    [|cbn; repeat split; auto using cards_frame_refl].
  destruct (sm2 clk c q) as [s|x];
    [|cbn; repeat split; auto using cards_frame_refl].
  unfold insert_revlog. cbn [db_revlog set_cards].
  destruct (existsb _ (db_revlog d));
    [cbn; repeat split; auto using update_cards_frame|].
  assert (Hone : exists l,
            (db_revlog d ++ [log_entry clk cid q (c_ivl c) s])%list
            = (db_revlog d ++ l)%list /\ (List.length l <= 1)%nat)
    by (eexists; split; [reflexivity|simpl; lia]).
  destruct (new_queue s =? 1);
    [cbn; repeat split; auto using update_cards_frame|].
  destruct (date_from_days (due s));
    cbn; repeat split; auto using update_cards_frame.
Qed.

(** ** C10: the repetition count *)



(* ================================================================== *)
(** * More of the code: checksums, new cards, lookups, notes, archives,
      the review endpoint and the review session *)

(** ** Checksums *)

Lemma mask32 (x : Z) : Z.land x 0xFFFFFFFF = x mod 2 ^ 32.
Proof. change 0xFFFFFFFF with (Z.ones 32). apply Z.land_ones. lia. Qed.

Lemma fold_add_sum (l : list Z) (a : Z) :
  fold_left Z.add l a = a + fold_right Z.add 0 l.
Proof.
  revert a. induction l as [|x l IH]; intros a; simpl; [lia|].
  rewrite IH. lia.
Qed.

Lemma sum_perm (l l' : list Z) :
  Permutation l l' -> fold_right Z.add 0 l = fold_right Z.add 0 l'.
Proof. induction 1; simpl; lia. Qed.

(** X1: [calculate_checksum] is the sum of the character codes modulo 2^32;
    it lies in [0, 2^32), and two texts with the same characters in another
    order have the same checksum. *)
Theorem calculate_checksum_sum (text : string) :
  calculate_checksum text
    = fold_right Z.add 0 (map ord (list_ascii_of_string text)) mod 2 ^ 32 /\
  0 <= calculate_checksum text < 2 ^ 32 /\
  forall text',
    Permutation (list_ascii_of_string text) (list_ascii_of_string text') ->
    calculate_checksum text' = calculate_checksum text.
Proof.
  assert (H : forall t, calculate_checksum t
            = fold_right Z.add 0 (map ord (list_ascii_of_string t)) mod 2 ^ 32).
  { intros t. unfold calculate_checksum. rewrite mask32, fold_add_sum. reflexivity. }
  split; [apply H|]. split.
  - rewrite H. apply Z.mod_pos_bound. lia.
  - intros text' Hp. rewrite !H. f_equal. apply sum_perm.
    apply Permutation_map. apply Permutation_sym. exact Hp.
Qed.

Lemma masked_fold (l : list ascii) (v w : Z) :
  v mod 2 ^ 32 = w mod 2 ^ 32 ->
  fold_left (fun val c => Z.land (val * 31 + ord c) 0xFFFFFFFF) l v mod 2 ^ 32
  = fold_left (fun val c => val * 31 + ord c) l w mod 2 ^ 32.
Proof.
  revert v w. induction l as [|c l IH]; intros v w H; simpl; [exact H|].
  apply IH. rewrite mask32, Z.mod_mod by lia.
  rewrite (Z.add_mod (v * 31)), (Z.add_mod (w * 31)) by lia.
  rewrite (Z.mul_mod v), (Z.mul_mod w) by lia. rewrite H. reflexivity.
Qed.

Lemma masked_fold_range (l : list ascii) (v : Z) :
  0 <= v < 2 ^ 32 ->
  0 <= fold_left (fun val c => Z.land (val * 31 + ord c) 0xFFFFFFFF) l v < 2 ^ 32.
Proof.
  revert v. induction l as [|c l IH]; intros v H; simpl; [exact H|].
  apply IH. rewrite mask32. apply Z.mod_pos_bound. lia.
Qed.

Lemma checksum_horner (text : string) : _checksum text = horner text mod 2 ^ 32.
Proof.
  unfold _checksum, horner.
  rewrite <- (masked_fold _ 0 0 eq_refl).
  symmetry. apply Z.mod_small. apply masked_fold_range. lia.
Qed.

(** X2: masking after every character is the same as masking once at the
    end: [_checksum] is the base-31 polynomial of the character codes modulo
    2^32, and lies in [0, 2^32). *)
Theorem checksum_polynomial (text : string) :
  _checksum text = horner text mod 2 ^ 32 /\ 0 <= _checksum text < 2 ^ 32.
Proof.
  split; [apply checksum_horner|].
  rewrite checksum_horner. apply Z.mod_pos_bound. lia.
Qed.

Lemma list_ascii_of_string_app (s t : string) :
  list_ascii_of_string (s ++ t) = (list_ascii_of_string s ++ list_ascii_of_string t)%list.
Proof. induction s as [|a s IH]; simpl; [reflexivity|]. rewrite IH. reflexivity. Qed.

Lemma horner_fold_shift (l : list ascii) (v : Z) :
  fold_left (fun val c => val * 31 + ord c) l v
  = v * 31 ^ Z.of_nat (List.length l) + fold_left (fun val c => val * 31 + ord c) l 0.
Proof.
  revert v. induction l as [|c l IH]; intros v.
  - simpl. lia.
  - cbn [fold_left List.length]. rewrite IH, (IH (0 * 31 + ord c)).
    rewrite Nat2Z.inj_succ, Z.pow_succ_r by lia. ring.
Qed.

(** X3: the checksum of a concatenation comes from the checksums of the
    parts: [_checksum(s + t) = (_checksum(s) * 31^len(t) + _checksum(t)) mod 2^32]. *)
Theorem checksum_app (s t : string) :
  _checksum (s ++ t)
  = (_checksum s * 31 ^ Z.of_nat (String.length t) + _checksum t) mod 2 ^ 32.
Proof.
  rewrite !checksum_horner. unfold horner at 1.
  rewrite list_ascii_of_string_app, fold_left_app, horner_fold_shift.
  fold (horner s). fold (horner t).
  assert (Hl : List.length (list_ascii_of_string t) = String.length t).
  { induction t as [|a t IH]; simpl; congruence. }
  rewrite Hl.
  rewrite Z.add_mod_idemp_r by lia.
  rewrite <- (Z.add_mod_idemp_l (horner s mod 2 ^ 32 * _)) by lia.
  rewrite Z.mul_mod_idemp_l, Z.add_mod_idemp_l by lia. reflexivity.
Qed.

(** ** Joining and splitting the fields *)

Lemma split_nonempty (c : ascii) (s : string) : Str.split c s <> [].
Proof.
  destruct s as [|a s]; simpl; [discriminate|].
  destruct (Ascii.eqb a c); [discriminate|]. destruct (Str.split c s); discriminate.
Qed.

Lemma split_no_sep (s : string) : no_sep s -> Str.split sep s = [s].
Proof.
  unfold no_sep. induction s as [|a s IH]; simpl; intros H; [reflexivity|].
  destruct (Ascii.eqb a sep) eqn:E.
  - apply Ascii.eqb_eq in E. exfalso. apply H. left. exact E.
  - rewrite IH by (intros Hin; apply H; right; exact Hin). reflexivity.
Qed.

Lemma split_app_sep (s t : string) :
  no_sep s -> Str.split sep (s ++ String sep t) = s :: Str.split sep t.
Proof.
  unfold no_sep. induction s as [|a s IH]; simpl; intros H.
  - reflexivity.
  - destruct (Ascii.eqb a sep) eqn:E.
    + apply Ascii.eqb_eq in E. exfalso. apply H. left. exact E.
    + rewrite IH by (intros Hin; apply H; right; exact Hin). reflexivity.
Qed.

(** X4: splitting the joined field blob gives the fields back, for a
    non-empty list of fields none of which holds the separator. (The empty
    list joins to the empty string, which splits into one empty field.) *)
Theorem split_concat_roundtrip (fields : list string) :
  fields <> [] -> Forall no_sep fields ->
  Str.split sep (String.concat (String sep "") fields) = fields.
Proof.
  intros Hne Hall. induction fields as [|f fields IH]; [contradiction|].
  inversion Hall as [|? ? Hf Hrest]; subst.
  destruct fields as [|g fields].
  - simpl. apply split_no_sep. exact Hf.
  - change (String.concat (String sep "") (f :: g :: fields))
      with (f ++ String sep "" ++ String.concat (String sep "") (g :: fields)).
    simpl append at 2.
    rewrite split_app_sep by exact Hf. f_equal. apply IH; [discriminate|exact Hrest].
Qed.

Lemma split_concat_roundtrip_witness :
  Str.split sep (String.concat (String sep "") ["2+2?"; "4"]) = ["2+2?"; "4"].
Proof.
  apply split_concat_roundtrip; [discriminate|].
  repeat constructor; unfold no_sep; simpl; intuition discriminate.
Defined.

(** ** Adding a card and asking for the due cards *)

Lemma existsb_false_forall {A : Type} (f : A -> bool) (l : list A) :
  existsb f l = false <-> forall x, In x l -> f x = false.
Proof.
  split.
  - intros H x Hx. destruct (f x) eqn:E; [|reflexivity].
    assert (existsb f l = true) by (apply existsb_exists; eauto). congruence.
  - intros H. destruct (existsb f l) eqn:E; [|reflexivity].
    apply existsb_exists in E. destruct E as (x & Hx & Hfx).
    rewrite (H x Hx) in Hfx. discriminate.
Qed.

Lemma note_id_fresh (k : Z) (ns : list note) :
  (forall n, In n ns -> n_id n <> k) ->
  existsb (fun x => n_id x =? k) ns = false.
Proof.
  intros H. apply existsb_false_forall. intros x Hx. apply Z.eqb_neq. auto.
Qed.

Lemma card_id_fresh (k : Z) (cs : list card) :
  (forall c, In c cs -> c_id c <> k) ->
  existsb (fun x => c_id x =? k) cs = false.
Proof.
  intros H. apply existsb_false_forall. intros x Hx. apply Z.eqb_neq. auto.
Qed.

(** The rows of the due query, by the cards and notes they come from. *)
Lemma due_cards_iff (as_of : Z) (d : db) (r : due_card) :
  In r (get_cards_due_today as_of d) <->
  exists c n,
    In c (db_cards d) /\ In n (db_notes d) /\ c_nid c = n_id n /\
    card_is_due as_of c = true /\
    (2 <= List.length (Str.split sep (n_flds n)))%nat /\
    r = {| dc_id := c_id c;
           dc_question := nth 0 (Str.split sep (n_flds n)) "";
           dc_answer := nth 1 (Str.split sep (n_flds n)) "" |}.
Proof.
  unfold get_cards_due_today, select_due. rewrite in_flat_map. split.
  - intros ((cid & flds) & Hrow & Hr). cbn [fst snd] in Hr.
    apply in_flat_map in Hrow. destruct Hrow as (c & Hc & Hrow).
    destruct (card_is_due as_of c) eqn:Hdue; [|contradiction].
    apply in_map_iff in Hrow. destruct Hrow as (n & [= <- <-] & Hn).
    apply filter_In in Hn. destruct Hn as [Hn Hjoin]. apply Z.eqb_eq in Hjoin.
    destruct (2 <=? Z.of_nat (List.length (Str.split sep (n_flds n)))) eqn:Hlen;
      [|contradiction].
    destruct Hr as [<-|[]]. apply Z.leb_le in Hlen.
    exists c, n. repeat split; try assumption; lia.
  - intros (c & n & Hc & Hn & Hjoin & Hdue & Hlen & ->).
    exists (c_id c, n_flds n). cbn [fst snd]. split.
    + apply in_flat_map. exists c. split; [exact Hc|].
      rewrite Hdue. apply in_map_iff. exists n. split; [reflexivity|].
      apply filter_In. split; [exact Hn|apply Z.eqb_eq; exact Hjoin].
    + assert (Hl : (2 <=? Z.of_nat (List.length (Str.split sep (n_flds n)))) = true)
        by (apply Z.leb_le; lia).
      rewrite Hl. left. reflexivity.
Qed.

(** X5: a card added with a fresh id is on the due list of every day, with
    the question and the answer it was added with, when neither holds the
    field separator. *)
Theorem add_card_then_due (clk : card_clock) (d : db) (question answer : string)
    (as_of : Z) :
  (forall n, In n (db_notes d) -> n_id n <> add_time_ms clk + id_jitter clk) ->
  (forall c, In c (db_cards d) -> c_id c <> add_time_ms clk + id_jitter clk) ->
  no_sep question -> no_sep answer ->
  fst (add_card clk d question answer) = Ok (add_time_ms clk + id_jitter clk) /\
  In {| dc_id := add_time_ms clk + id_jitter clk;
        dc_question := question;  dc_answer := answer |}
     (get_cards_due_today as_of (snd (add_card clk d question answer))).
Proof.
  intros Hn Hc Hq Ha. unfold add_card, insert_note, insert_card.
  cbn [n_id c_id new_card set_notes db_cards].
  rewrite (note_id_fresh _ _ Hn), (card_id_fresh _ _ Hc). cbn [fst snd].
  split; [reflexivity|].
  set (id := add_time_ms clk + id_jitter clk).
  assert (Hs : Str.split sep (question ++ String sep "" ++ answer) = [question; answer]).
  { simpl append. rewrite split_app_sep by exact Hq.
    rewrite split_no_sep by exact Ha. reflexivity. }
  apply due_cards_iff.
  exists (new_card id id 1 0 (add_time clk) (new_position clk)).
  exists {| n_id := id;  n_guid := Py.str id;  n_mid := 1;
            n_mod := add_time clk;  n_usn := -1;  n_tags := "";
            n_flds := question ++ String sep "" ++ answer;
            n_sfld := question;  n_csum := calculate_checksum question;
            n_flags := 0;  n_data := "" |}.
  cbn [db_cards db_notes set_cards set_notes c_nid n_id n_flds c_id new_card].
  rewrite Hs.
  split; [apply in_or_app; right; left; reflexivity|].
  split; [apply in_or_app; right; left; reflexivity|].
  repeat split. simpl. lia.
Qed.

Lemma add_card_then_due_witness :
  In {| dc_id := 1700000000540;  dc_question := "Q2";  dc_answer := "A2" |}
     (get_cards_due_today 0
        (snd (add_card sample_card_clock
                (sample_db (sample_card 6 2500) (sample_note sample_qa) [])
                "Q2" "A2"))).
Proof.
  refine (proj2 (add_card_then_due sample_card_clock
                   (sample_db (sample_card 6 2500) (sample_note sample_qa) [])
                   "Q2" "A2" 0 _ _ _ _)).
  - intros n [<-|[]]. cbn. lia.
  - intros c [<-|[]]. cbn. lia.
  - unfold no_sep. cbn. intuition discriminate.
  - unfold no_sep. cbn. intuition discriminate.
Defined.

Lemma split_with_sep_length (s t : string) :
  (2 <= List.length (Str.split sep (s ++ String sep t)))%nat.
Proof.
  induction s as [|a s IH]; simpl.
  - pose proof (split_nonempty sep t). destruct (Str.split sep t); [contradiction|].
    simpl. lia.
  - destruct (Ascii.eqb a sep); [simpl; lia|].
    destruct (Str.split sep (s ++ String sep t)); simpl in *; lia.
Qed.

Lemma add_card_ok (clk : card_clock) (d : db) (question answer : string) :
  db_ok d -> db_ok (snd (add_card clk d question answer)).
Proof.
  intros (Hnd & Hcn & Hnf). unfold add_card, insert_note, insert_card.
  cbn [n_id c_id new_card set_notes db_cards].
  set (id := add_time_ms clk + id_jitter clk).
  destruct (existsb (fun x => n_id x =? id) (db_notes d)) eqn:En;
    [cbn [snd]; repeat split; assumption|].
  set (n := {| n_id := id;  n_guid := Py.str id;  n_mid := 1 |}).
  assert (Hnd' : NoDup (map n_id (db_notes d ++ [n]))).
  { rewrite map_app. cbn. apply NoDup_app; [exact Hnd | repeat constructor; auto |].
    intros x Hx [<-|[]]. apply in_map_iff in Hx. destruct Hx as (m & Hm & Hin).
    pose proof (proj1 (existsb_false_forall _ _) En m Hin) as Hf.
    cbn in Hf. apply Z.eqb_neq in Hf. contradiction. }
  assert (Hnf' : forall m, In m (db_notes d ++ [n]) ->
                 (2 <= List.length (Str.split sep (n_flds m)))%nat).
  { intros m Hm. apply in_app_or in Hm. destruct Hm as [Hm|[<-|[]]]; [auto|].
    cbn [n_flds n]. simpl append. apply split_with_sep_length. }
  assert (Hold : forall c, In c (db_cards d) ->
                 exists m, In m (db_notes d ++ [n]) /\ n_id m = c_nid c).
  { intros c Hc. destruct (Hcn c Hc) as (m & Hm & E).
    exists m. split; [apply in_or_app; left; exact Hm|exact E]. }
  destruct (existsb (fun x => c_id x =? id) (db_cards d)); cbn [snd].
  - repeat split; assumption.
  - split; [exact Hnd'|]. split; [|exact Hnf'].
    cbn [db_cards set_cards set_notes db_notes]. intros c Hc.
    apply in_app_or in Hc. destruct Hc as [Hc|[<-|[]]]; [auto|].
    exists n. split; [apply in_or_app; right; left; reflexivity|reflexivity].
Qed.

Lemma update_cards_nid (clk : clock) (s : schedule) (cid : Z) (cs : list card)
    (c' : card) :
  In c' (update_cards clk s cid cs) ->
  exists c, In c cs /\ c_nid c' = c_nid c /\ c_id c' = c_id c /\
            (c_id c = cid -> c' = update_card clk s c) /\
            (c_id c <> cid -> c' = c).
Proof.
  unfold update_cards. intros H. apply in_map_iff in H. destruct H as (c & E & Hc).
  exists c. split; [exact Hc|].
  destruct (c_id c =? cid) eqn:Eid; subst c'.
  - apply Z.eqb_eq in Eid. repeat split; auto. intros Hne. contradiction.
  - apply Z.eqb_neq in Eid. repeat split; auto. intros He. contradiction.
Qed.

(** The tables after an invocation of the scheduler. *)
Lemma apply_tables (clk : clock) (d : db) (cid q : Z) :
  db_notes (snd (apply_sm2_algorithm clk d cid q)) = db_notes d /\
  (db_cards (snd (apply_sm2_algorithm clk d cid q)) = db_cards d \/
   exists s, db_cards (snd (apply_sm2_algorithm clk d cid q))
             = update_cards clk s cid (db_cards d)).
Proof.
  unfold apply_sm2_algorithm.
  destruct ((q <? 0) || (q >? 5)); [cbn; auto|].
  destruct (select_card cid (db_cards d)) as [c|]; [|cbn; auto].
  destruct (sm2 clk c q) as [s|x]; [|cbn; auto].
  unfold insert_revlog. cbn [db_revlog set_cards].
  destruct (existsb _ (db_revlog d)); [cbn; eauto|].
  destruct (new_queue s =? 1); [cbn; eauto|].
  destruct (date_from_days (due s)); cbn; eauto.
Qed.

Lemma apply_ok (clk : clock) (d : db) (cid q : Z) :
  db_ok d -> db_ok (snd (apply_sm2_algorithm clk d cid q)).
Proof.
  intros (Hnd & Hcn & Hnf).
  destruct (apply_tables clk d cid q) as [Hn Hc]. unfold db_ok. rewrite Hn.
  split; [exact Hnd|]. split; [|exact Hnf].
  destruct Hc as [-> | (s & ->)]; [exact Hcn|].
  intros c' Hc'. apply update_cards_nid in Hc'.
  destruct Hc' as (c & Hc & -> & _). apply Hcn. exact Hc.
Qed.

(** X6: [add_card] and the scheduler keep the database well formed: note
    ids stay unique, every card keeps a note, every note has at least two
    fields, whatever the arguments and the outcome. *)
Theorem db_ok_preserved (d : db) :
  db_ok d ->
  (forall clk question answer, db_ok (snd (add_card clk d question answer))) /\
  (forall clk cid q, db_ok (snd (apply_sm2_algorithm clk d cid q))).
Proof.
  intros H. split; intros; [apply add_card_ok | apply apply_ok]; exact H.
Qed.

Lemma sample_db_ok (c : card) (log : list revlog_entry) :
  c_nid c = 1 -> db_ok (sample_db c (sample_note sample_qa) log).
Proof.
  intros Hc. unfold db_ok. cbn. split; [repeat constructor; intros []|]. split.
  - intros x [<-|[]]. eexists. split; [left; reflexivity|]. cbn. congruence.
  - intros n [<-|[]]. cbn. lia.
Qed.

Lemma db_ok_preserved_witness :
  db_ok (snd (apply_sm2_algorithm sample_clock
                (sample_db (sample_card 6 2500) (sample_note sample_qa) []) 1 4)).
Proof.
  apply (db_ok_preserved (sample_db (sample_card 6 2500) (sample_note sample_qa) [])).
  apply sample_db_ok. reflexivity.
Defined.

Lemma filter_unique_note (k : Z) (ns : list note) (n : note) :
  NoDup (map n_id ns) -> In n ns -> n_id n = k ->
  filter (fun x => k =? n_id x) ns = [n].
Proof.
  induction ns as [|a ns IH]; intros Hnd Hin Hk; [contradiction|].
  simpl in Hnd. inversion Hnd as [|? ? Hnotin Hnd']; subst.
  simpl. destruct Hin as [->|Hin].
  - rewrite Z.eqb_refl. f_equal.
    assert (H : forall x, In x ns -> (n_id n =? n_id x) = false).
    { intros x Hx. apply Z.eqb_neq. intros E. apply Hnotin.
      rewrite E. apply in_map. exact Hx. }
    clear -H. induction ns as [|b ns IH]; [reflexivity|].
    simpl. rewrite (H b (or_introl eq_refl)). apply IH.
    intros x Hx. apply H. right. exact Hx.
  - destruct (n_id n =? n_id a) eqn:E.
    + apply Z.eqb_eq in E. exfalso. apply Hnotin. rewrite <- E.
      apply in_map. exact Hin.
    + apply IH; auto.
Qed.



(** ** Lower bounds through the scheduler's products *)

Lemma ge_scaled (N p e K : Z) :
  0 <= K -> 0 <= K + e ->
  (N * 2 ^ Z.max 0 (- e) <= p * 2 ^ Z.max 0 e <-> N * 2 ^ K <= p * 2 ^ (K + e)).
Proof.
  intros HK HKe.
  set (j := K - Z.max 0 (- e)).
  assert (Hj : 0 <= j) by (subst j; lia).
  replace K with (Z.max 0 (- e) + j) at 1 by (subst j; lia).
  replace (K + e) with (Z.max 0 e + j) by (subst j; lia).
  rewrite !Z.pow_add_r by lia.
  assert (0 < 2 ^ j) by (apply Z.pow_pos_nonneg; lia).
  split; intros H'; nia.
Qed.

Lemma fmul_ge (a b : Z) (x y : spec_float) :
  0 < a -> 0 < b -> a * b <= 2 ^ 52 ->
  ge_int a x -> ge_int b y -> ge_int (a * b) (Py.fmul x y).
Proof.
  intros Ha Hb Hab Hx Hy.
  destruct x as [sx|sx| |sx p1 e1]; try contradiction;
    destruct sx; try contradiction;
    destruct y as [sy|sy| |sy p2 e2]; try contradiction;
    destruct sy; try contradiction; try exact I.
  unfold ge_int in Hx, Hy. unfold Py.fmul, SFmul. simpl xorb.
  apply binary_round_aux_ge; try lia.
  rewrite Pos2Z.inj_mul.
  apply (ge_scaled a (Zpos p1) e1 (Z.max 0 (- e1))) in Hx; try lia.
  apply (ge_scaled b (Zpos p2) e2 (Z.max 0 (- e2))) in Hy; try lia.
  apply (ge_scaled (a * b) (Zpos p1 * Zpos p2) (e1 + e2)
           (Z.max 0 (- e1) + Z.max 0 (- e2))); try lia.
  replace (Z.max 0 (- e1) + Z.max 0 (- e2) + (e1 + e2))
    with ((Z.max 0 (- e1) + e1) + (Z.max 0 (- e2) + e2)) by lia.
  rewrite !Z.pow_add_r by lia.
  assert (0 < 2 ^ Z.max 0 (- e1)) by (apply Z.pow_pos_nonneg; lia).
  assert (0 < 2 ^ Z.max 0 (- e2)) by (apply Z.pow_pos_nonneg; lia).
  nia.
Qed.

Lemma float_of_Z_ge (N z : Z) :
  0 < N <= 2 ^ 52 -> N <= z -> ge_int N (Py.float_of_Z z).
Proof.
  intros HN Hz. unfold Py.float_of_Z.
  destruct z as [|p|p]; try lia. simpl binary_normalize. unfold binary_round.
  pose proof (shl_align_spec p 0 (fexp Py.prec Py.emax (Zpos (digits2_pos p) + 0)))
    as [H1 H2].
  destruct (shl_align p 0 _) as [mz ez]. cbn [fst snd] in H1, H2.
  apply binary_round_aux_ge; try lia.
  assert (Hez : ez <= 0) by lia.
  rewrite (Z.max_r 0 (- ez)), (Z.max_l 0 ez), Z.pow_0_r by lia.
  rewrite H2. replace (0 - Z.min 0 _) with (- ez) by lia.
  assert (0 < 2 ^ (- ez)) by (apply Z.pow_pos_nonneg; lia). nia.
Qed.

Lemma max_1_3_ge_1 (x : spec_float) :
  normal_or_small x -> ge_int 1 (Py.max Py.f1_3 x).
Proof.
  intros Hn. unfold Py.max. destruct (Py.fgt x Py.f1_3) eqn:Hgt;
    [|vm_compute; discriminate].
  rewrite literal_1_3 in Hgt. unfold Py.fgt, SFltb, SFcompare in Hgt.
  destruct x as [s|s| |s p e]; try discriminate.
  - destruct s; [discriminate|exact I].
  - destruct s; [discriminate|]. unfold ge_int, normal_or_small in *.
    destruct (-52 ?= e) eqn:Hc; try discriminate.
    + apply Z.compare_eq in Hc. subst e.
      assert (5854679515581645 < p)%positive.
      { apply Pos.compare_lt_iff.
        destruct (Pos.compare_cont Eq 5854679515581645 p) eqn:Hp; try discriminate.
        exact Hp. }
      change (Z.max 0 (- -52)) with 52. change (Z.max 0 (-52)) with 0.
      rewrite Z.pow_0_r. lia.
    + rewrite Z.compare_lt_iff in Hc.
      assert (Hp : 2 ^ 52 <= Zpos p) by (apply Hn; lia).
      destruct (Z_le_gt_dec e 0) as [He|He].
      * rewrite (Z.max_r 0 (- e)), (Z.max_l 0 e), Z.pow_0_r by lia.
        assert (2 ^ (- e) <= 2 ^ 51) by (apply Z.pow_le_mono_r; lia). lia.
      * rewrite (Z.max_l 0 (- e)), (Z.max_r 0 e), Z.pow_0_r by lia.
        assert (0 < 2 ^ e) by (apply Z.pow_pos_nonneg; lia). nia.
Qed.

Lemma product_interval_ge (N ivl : Z) (x : spec_float) (i : Z) :
  0 < N <= 2 ^ 52 -> N <= ivl -> int64 ivl -> fin 58 x ->
  (let* f := Py.to_float ivl in Py.int (Py.fmul f (Py.max Py.f1_3 x))) = Ok i ->
  N <= i.
Proof.
  intros HN Hle Hiv Hx.
  destruct (to_float_int64 _ Hiv) as [-> [Hmi _]]. cbn [bind].
  pose proof (max_fin 58 _ Hx ltac:(lia)) as [Hmm _].
  intros Hi.
  destruct (int_ge (N * 1) (Py.fmul (Py.float_of_Z ivl) (Py.max Py.f1_3 x))
              (64 + 58 + 1)) as (z' & Hz' & Hge); try lia.
  - apply fmul_ge; try lia.
    + apply float_of_Z_ge; lia.
    + apply max_1_3_ge_1. apply Hx.
  - apply fmul_mag; try lia; assumption.
  - rewrite Hi in Hz'. injection Hz' as <-. lia.
Qed.

(** The schedule of a passing review: the queue, the due day, and the new
    interval against the old one. *)
Lemma sm2_pass_growth (clk : clock) (c : card) (q : Z) :
  3 <= q <= 5 -> card_wf c -> 0 <= c_ivl c ->
  exists s,
    sm2 clk c q = Ok s /\ new_queue s = 2 /\ due s = today clk + new_interval s /\
    reps s = c_reps c + 1 /\
    1 <= new_interval s /\
    (c_ivl c <= 2 ^ 52 -> c_ivl c <= new_interval s).
Proof.
  intros Hq Hwf Hi0.
  destruct (sm2_pass clk c q Hq Hwf) as (e & z & i & He & _ & _ & Hi & Hs).
  destruct (pass_ease_delta q Hq) as (dl & Hdl & Hpe).
  rewrite Hpe in He. injection He as <-.
  assert (Hx : fin 58 (Py.fadd (Py.fdiv (Py.float_of_Z (c_factor c)) Py.f1000) dl)).
  { apply (fadd_fin _ _ 56 0); [apply ease_fin; apply Hwf | exact Hdl | lia | lia]. }
  assert (Hge : forall N, 0 < N <= 2 ^ 52 -> N <= c_ivl c -> 2 <= c_ivl c -> N <= i).
  { intros N HN Hle H2.
    assert (E0 : (c_ivl c =? 0) = false) by (apply Z.eqb_neq; lia).
    assert (E1 : (c_ivl c =? 1) = false) by (apply Z.eqb_neq; lia).
    rewrite E0, E1 in Hi.
    exact (product_interval_ge N (c_ivl c) _ i HN Hle (proj2 Hwf) Hx Hi). }
  assert (Hsmall : c_ivl c = 0 \/ c_ivl c = 1 -> i = 1 \/ i = 6).
  { intros [E|E]; rewrite E in Hi; simpl in Hi; injection Hi as <-; auto. }
  eexists. split; [exact Hs|]. cbn. repeat split.
  - destruct (Z_lt_le_dec (c_ivl c) 2); [lia|].
    specialize (Hge 2 ltac:(lia) ltac:(lia) ltac:(lia)). lia.
  - intros Hle. destruct (Z_lt_le_dec (c_ivl c) 2); [lia|].
    apply Hge; lia.
Qed.

(** ** The reviewed card and the due list *)

Lemma card_small_wf (c : card) : card_small c -> card_wf c.
Proof. unfold card_small, card_wf, int64. lia. Qed.











(** ** Lookups by name *)

Lemma dict_get_None {V : Type} (k : string) (d : dict V) :
  dict_get k d = None <-> ~ In k (dict_keys d).
Proof.
  unfold dict_get, dict_keys. induction d as [|[k' v'] d IH]; simpl.
  - split; auto.
  - destruct (String.eqb k' k) eqn:E; simpl.
    + apply String.eqb_eq in E. split; [discriminate|]. intros H. exfalso. auto.
    + apply String.eqb_neq in E. rewrite IH. split; intros H; [intros [H'|H']; auto|auto].
Qed.

Lemma dict_set_fresh {V : Type} (k : string) (v : V) (d : dict V) :
  dict_get k d = None -> dict_set k v d = (d ++ [(k, v)])%list.
Proof.
  unfold dict_get. induction d as [|[k' v'] d IH]; simpl; [reflexivity|].
  destruct (String.eqb k' k); simpl; [discriminate|].
  intros H. rewrite (IH H). reflexivity.
Qed.

Lemma dict_get_app_l {V : Type} (k : string) (d d' : dict V) :
  In k (dict_keys d) -> dict_get k (d ++ d')%list = dict_get k d.
Proof.
  unfold dict_get, dict_keys. induction d as [|[k' v'] d IH]; simpl; [contradiction|].
  intros [H|H].
  - subst k'. rewrite String.eqb_refl. reflexivity.
  - destruct (String.eqb k' k); [reflexivity|]. apply IH. exact H.
Qed.

Lemma find_ext_in {A : Type} (f g : A -> bool) (l : list A) :
  (forall x, In x l -> f x = g x) -> find f l = find g l.
Proof.
  induction l as [|a l IH]; simpl; [reflexivity|]. intros H.
  rewrite (H a (or_introl eq_refl)). destruct (g a); [reflexivity|].
  apply IH. intros x Hx. apply H. right. exact Hx.
Qed.

Lemma find_app_single {A : Type} (f : A -> bool) (l : list A) (a : A) :
  find f (l ++ [a]) = match find f l with
                      | Some x => Some x
                      | None => if f a then Some a else None
                      end.
Proof.
  induction l as [|b l IH]; simpl; [reflexivity|].
  destruct (f b); [reflexivity|exact IH].
Qed.

(** The search of a document by a property of its values, after an entry
    under a new key. *)
Lemma search_set_fresh {V : Type} (p : V -> bool) (k : string) (v : V) (d : dict V) :
  dict_get k d = None ->
  find (fun id => match dict_get id (dict_set k v d) with
                  | Some m => p m
                  | None => false
                  end) (dict_keys (dict_set k v d))
  = match find (fun id => match dict_get id d with
                          | Some m => p m
                          | None => false
                          end) (dict_keys d) with
    | Some id => Some id
    | None => if p v then Some k else None
    end.
Proof.
  intros Hk.
  assert (Hkeys : dict_keys (dict_set k v d) = (dict_keys d ++ [k])%list).
  { rewrite (dict_set_fresh k v d Hk). unfold dict_keys. rewrite map_app. reflexivity. }
  rewrite Hkeys, find_app_single, dict_get_set_same.
  rewrite (find_ext_in _ (fun id => match dict_get id d with
                                    | Some m => p m
                                    | None => false
                                    end) (dict_keys d)); [reflexivity|].
  intros id Hid.
  rewrite dict_get_set_other; [reflexivity|].
  intros E. subst id. apply dict_get_None in Hk. contradiction.
Qed.

(** X12: after [add_model] under an id that is not yet a key of the
    document, [searchModelId] answers as before for every name that some
    model had, and finds the new model, under the text of the returned id,
    for its name when no older model has that name. *)
Theorem search_after_add_model (clk : model_clock) (d : db) (name : string)
    (fields : list string) (templates : list template_in) (model : string) :
  dict_get (Py.str (id_time_ms clk)) (col_models (db_col d)) = None ->
  searchModelId (snd (add_model clk d name fields templates)) model
  = match searchModelId d model with
    | Some id => Some id
    | None => if String.eqb name model
              then Some (Py.str (fst (add_model clk d name fields templates)))
              else None
    end.
Proof.
  intros Hk. unfold searchModelId. cbn [add_model snd fst set_col db_col col_models].
  exact (search_set_fresh (fun m => String.eqb (m_name m) model) _
           (new_model clk name fields templates) _ Hk).
Qed.

Lemma search_after_add_model_witness :
  searchModelId
    (snd (add_model (sample_model_clock 1700000000123)
            (sample_db (sample_card 6 2500) (sample_note sample_qa) [])
            "Custom Model" ["Question"; "Answer"] sample_templates))
    "Custom Model"
  = Some "1700000000123".
Proof.
  exact (search_after_add_model (sample_model_clock 1700000000123)
           (sample_db (sample_card 6 2500) (sample_note sample_qa) [])
           "Custom Model" ["Question"; "Answer"] sample_templates "Custom Model"
           eq_refl).
Defined.

(** X13: the same for decks: after [add_deck] under a new id,
    [searchDeckId] answers as before for every name that some deck had, and
    finds the new deck for its name when no older deck has that name; the
    models and the tables are as before. *)
Theorem search_after_add_deck (clk : model_clock) (d : db) (name deck_name : string) :
  dict_get (Py.str (id_time_ms clk)) (col_decks (db_col d)) = None ->
  searchDeckId (snd (add_deck clk d name)) deck_name
  = match searchDeckId d deck_name with
    | Some id => Some id
    | None => if String.eqb name deck_name
              then Some (Py.str (fst (add_deck clk d name)))
              else None
    end /\
  (forall model, searchModelId (snd (add_deck clk d name)) model
                 = searchModelId d model) /\
  db_notes (snd (add_deck clk d name)) = db_notes d /\
  db_cards (snd (add_deck clk d name)) = db_cards d.
Proof.
  intros Hk. split; [|repeat split].
  unfold searchDeckId. cbn [add_deck snd fst set_col db_col col_decks].
  exact (search_set_fresh (fun dk => String.eqb (d_name dk) deck_name) _ _ _ Hk).
Qed.

Lemma search_after_add_deck_witness :
  searchDeckId
    (snd (add_deck (sample_model_clock 1700000000123)
            (sample_db (sample_card 6 2500) (sample_note sample_qa) [])
            "Basketball"))
    "Basketball"
  = Some "1700000000123".
Proof.
  exact (proj1 (search_after_add_deck (sample_model_clock 1700000000123)
                  (sample_db (sample_card 6 2500) (sample_note sample_qa) [])
                  "Basketball" "Basketball" eq_refl)).
Defined.

(** ** Notes and their cards *)

Lemma add_note_cards_fresh (clk : note_clock) (note_id deck_id : Z)
    (tmpls : list template_def) :
  forall (round : nat) (cs : list card),
    NoDup (map c_id (cs ++ note_cards clk round note_id deck_id tmpls)) ->
    Forall (fun c => c_id c <> 1) (note_cards clk round note_id deck_id tmpls) ->
    add_note_cards clk round note_id deck_id tmpls cs
    = (Ok tt, (cs ++ note_cards clk round note_id deck_id tmpls)%list).
Proof.
  induction tmpls as [|t tmpls IH]; intros round cs Hnd Hne; simpl.
  - rewrite app_nil_r. reflexivity.
  - simpl in Hnd, Hne. inversion Hne as [|c l H1 Hl]; subst. cbn in H1.
    apply Z.eqb_neq in H1. rewrite H1.
    unfold insert_card. cbn [c_id new_card].
    rewrite map_app in Hnd. cbn [map c_id new_card] in Hnd.
    assert (Hfresh : existsb (fun x => c_id x =? card_time_ms clk round + t_ord t) cs
                     = false).
    { apply card_id_fresh. intros c Hc E.
      apply NoDup_remove_2 in Hnd. apply Hnd. apply in_or_app. left.
      rewrite <- E. apply in_map. exact Hc. }
    rewrite Hfresh. rewrite IH.
    + rewrite <- app_assoc. reflexivity.
    + rewrite <- app_assoc. cbn [app]. rewrite map_app. cbn [map c_id new_card].
      exact Hnd.
    + exact Hl.
Qed.

Lemma add_note_returns (clk : note_clock) (d : db)
    (model_id deck_id : Z) (fields_data tags : list string) (m : model) :
  dict_get (Py.str model_id) (col_models (db_col d)) = Some m ->
  fields_data <> [] ->
  NoDup (map c_id (db_cards d
                   ++ note_cards clk 0 (note_time_ms clk) deck_id (m_tmpls m))) ->
  Forall (fun c => c_id c <> 1)
         (note_cards clk 0 (note_time_ms clk) deck_id (m_tmpls m)) ->
  fst (add_note clk d model_id deck_id fields_data tags) = Return (note_time_ms clk) /\
  db_cards (snd (add_note clk d model_id deck_id fields_data tags))
  = (db_cards d ++ note_cards clk 0 (note_time_ms clk) deck_id (m_tmpls m))%list.
Proof.
  intros Hm Hf Hnd Hne. unfold add_note. rewrite Hm.
  destruct fields_data as [|sfld rest]; [contradiction|].
  cbn [db_cards set_notes].
  rewrite (add_note_cards_fresh clk _ deck_id (m_tmpls m) 0%nat (db_cards d) Hnd Hne).
  split; reflexivity.
Qed.

Lemma enumerate_from_length {A : Type} (l : list A) :
  forall k, List.length (enumerate_from k l) = List.length l.
Proof. induction l; intros k; simpl; auto. Qed.

(** X14: [add_note] for a model of the document and a non-empty field list,
    when the card ids of the loop are other than 1, distinct and not yet in
    the card table: the note id is returned and the card table grows by one
    new card for each template, in template order; the note row is added
    when its id is new, and when the id is taken the note table stays as it
    is, the given fields are not stored. *)
Theorem add_note_one_card_per_template (clk : note_clock) (d : db)
    (model_id deck_id : Z) (fields_data tags : list string) (m : model) :
  dict_get (Py.str model_id) (col_models (db_col d)) = Some m ->
  fields_data <> [] ->
  NoDup (map c_id (db_cards d
                   ++ note_cards clk 0 (note_time_ms clk) deck_id (m_tmpls m))) ->
  Forall (fun c => c_id c <> 1)
         (note_cards clk 0 (note_time_ms clk) deck_id (m_tmpls m)) ->
  fst (add_note clk d model_id deck_id fields_data tags) = Return (note_time_ms clk) /\
  db_cards (snd (add_note clk d model_id deck_id fields_data tags))
  = (db_cards d ++ note_cards clk 0 (note_time_ms clk) deck_id (m_tmpls m))%list /\
  ((forall n, In n (db_notes d) -> n_id n <> note_time_ms clk) ->
   exists n,
     db_notes (snd (add_note clk d model_id deck_id fields_data tags))
     = (db_notes d ++ [n])%list /\
     n_id n = note_time_ms clk /\ n_mid n = model_id /\
     n_flds n = String.concat (String sep "") fields_data /\
     n_sfld n = hd "" fields_data /\ n_csum n = _checksum (hd "" fields_data)) /\
  ((exists n, In n (db_notes d) /\ n_id n = note_time_ms clk) ->
   db_notes (snd (add_note clk d model_id deck_id fields_data tags)) = db_notes d).
Proof.
  intros Hm Hf Hnd Hne.
  destruct (add_note_returns clk d model_id deck_id fields_data tags m Hm Hf Hnd Hne)
    as [Hret Hcards].
  split; [exact Hret|]. split; [exact Hcards|].
  clear Hret Hcards. unfold add_note. rewrite Hm.
  destruct fields_data as [|sfld rest]; [contradiction|].
  cbn [db_cards set_notes].
  rewrite (add_note_cards_fresh clk _ deck_id (m_tmpls m) 0%nat (db_cards d) Hnd Hne).
  cbn [fst snd db_cards db_notes set_cards set_notes].
  split.
  - intros Hfresh. rewrite (note_id_fresh _ _ Hfresh).
    eexists. split; [reflexivity|]. cbn. repeat split.
  - intros (n & Hn & Hid).
    assert (Ht : existsb (fun x => n_id x =? note_time_ms clk) (db_notes d) = true).
    { apply existsb_exists. exists n. split; [exact Hn|apply Z.eqb_eq; exact Hid]. }
    rewrite Ht. reflexivity.
Qed.

Lemma add_note_one_card_per_template_witness :
  fst (add_note sample_note_clock
         (snd (add_model (sample_model_clock 1700000000123)
                 (sample_db (sample_card 6 2500) (sample_note sample_qa) [])
                 "Custom Model" ["Question"; "Answer"] sample_templates))
         1700000000123 1 ["Q2"; "A2"] [])
  = Return 1700000000200.
Proof.
  refine (proj1 (add_note_one_card_per_template sample_note_clock
           (snd (add_model (sample_model_clock 1700000000123)
                   (sample_db (sample_card 6 2500) (sample_note sample_qa) [])
                   "Custom Model" ["Question"; "Answer"] sample_templates))
           1700000000123 1 ["Q2"; "A2"] []
           (new_model (sample_model_clock 1700000000123)
                      "Custom Model" ["Question"; "Answer"] sample_templates)
           eq_refl _ _ _)).
  - discriminate.
  - cbn. repeat constructor; cbn; intuition discriminate.
  - cbn. repeat constructor. discriminate.
Defined.

(** The ids that the loop draws for the templates of [add_model], whose
    [ord] counts from 0, grow strictly when the clock does not run
    backwards. *)
Lemma note_cards_enumerated (clk : note_clock) (note_id deck_id : Z)
    (templates : list template_in) :
  (forall i j, (i <= j)%nat -> card_time_ms clk i <= card_time_ms clk j) ->
  forall (k : Z) (round : nat),
    let new := note_cards clk round note_id deck_id
                 (map (fun it => {| t_name := in_name (snd it);  t_ord := fst it;
                                    t_qfmt := in_qfmt (snd it);
                                    t_afmt := in_afmt (snd it) |})
                      (enumerate_from k templates)) in
    map c_ord new = map fst (enumerate_from k templates) /\
    Forall (fun c => card_time_ms clk round + k <= c_id c /\
                     c_nid c = note_id /\ c_did c = deck_id /\
                     c_type c = 0 /\ c_queue c = 0 /\ c_ivl c = 0 /\
                     c_factor c = 2500) new /\
    NoDup (map c_id new).
Proof.
  intros Hmono. induction templates as [|t ts IH]; intros k round; cbn.
  - repeat split; constructor.
  - destruct (IH (k + 1) (S round)) as (Hord & Hall & Hnd).
    split; [f_equal; exact Hord|]. split.
    + constructor; [cbn; repeat split; lia|].
      eapply Forall_impl; [|exact Hall]. cbn. intros c (H1 & H2).
      split; [|exact H2].
      pose proof (Hmono round (S round) ltac:(lia)). lia.
    + constructor; [|exact Hnd]. intros Hin.
      apply in_map_iff in Hin. destruct Hin as (c & Hc & Hin).
      rewrite Forall_forall in Hall. destruct (Hall c Hin) as (H1 & _).
      pose proof (Hmono round (S round) ltac:(lia)). lia.
Qed.

(** X15: [add_model] followed by [add_note] for the returned id: when the
    clock of the loop does not run backwards and starts after 1 and after
    every id of the card table, the note gets exactly one new card for each
    template of the model, with the template numbers 0, 1, 2, ... in
    order, all of them linked to the note and the deck, and no card id is
    used twice. *)
Theorem add_model_then_add_note (mclk : model_clock) (clk : note_clock) (d : db)
    (name : string) (fields : list string) (templates : list template_in)
    (deck_id : Z) (fields_data tags : list string) :
  fields_data <> [] ->
  (forall i j, (i <= j)%nat -> card_time_ms clk i <= card_time_ms clk j) ->
  1 < card_time_ms clk 0 ->
  NoDup (map c_id (db_cards d)) ->
  (forall c, In c (db_cards d) -> c_id c < card_time_ms clk 0) ->
  let d1 := snd (add_model mclk d name fields templates) in
  let model_id := fst (add_model mclk d name fields templates) in
  fst (add_note clk d1 model_id deck_id fields_data tags) = Return (note_time_ms clk) /\
  exists new,
    db_cards (snd (add_note clk d1 model_id deck_id fields_data tags))
    = (db_cards d ++ new)%list /\
    map c_ord new = map fst (enumerate templates) /\
    List.length new = List.length templates /\
    Forall (fun c => c_nid c = note_time_ms clk /\ c_did c = deck_id /\
                     c_type c = 0 /\ c_queue c = 0) new /\
    NoDup (map c_id (db_cards d ++ new)).
Proof.
  intros Hf Hmono H1 Hnd Hold d1 model_id.
  destruct (note_cards_enumerated clk (note_time_ms clk) deck_id templates Hmono 0 0%nat)
    as (Hord & Hall & Hnew).
  set (new := note_cards clk 0 (note_time_ms clk) deck_id
                (m_tmpls (new_model mclk name fields templates))).
  change (note_cards _ _ _ _ _) with new in Hord, Hall, Hnew.
  rewrite Forall_forall in Hall.
  assert (Hnd' : NoDup (map c_id (db_cards d ++ new))).
  { rewrite map_app. apply NoDup_app; [exact Hnd|exact Hnew|].
    intros x Hx Hx'. apply in_map_iff in Hx, Hx'.
    destruct Hx as (c & <- & Hc). destruct Hx' as (c' & E & Hc').
    specialize (Hold c Hc). destruct (Hall c' Hc') as (Hge & _). lia. }
  assert (Hne : Forall (fun c => c_id c <> 1) new).
  { apply Forall_forall. intros c Hc. destruct (Hall c Hc) as (Hge & _). lia. }
  destruct (add_note_returns clk d1 model_id deck_id fields_data tags
              (new_model mclk name fields templates))
    as (Hret & Hcards).
  - apply dict_get_set_same.
  - exact Hf.
  - exact Hnd'.
  - exact Hne.
  - split; [exact Hret|]. exists new. split; [exact Hcards|].
    split; [exact Hord|]. split.
    + rewrite <- (length_map c_ord new), Hord, length_map.
      apply enumerate_from_length.
    + split; [|exact Hnd']. apply Forall_forall. intros c Hc.
      destruct (Hall c Hc) as (_ & ? & ? & ? & ? & _). auto.
Qed.

Lemma add_model_then_add_note_witness :
  fst (add_note sample_note_clock
         (snd (add_model (sample_model_clock 1700000000123)
                 (sample_db (sample_card 6 2500) (sample_note sample_qa) [])
                 "Custom Model" ["Question"; "Answer"] sample_templates))
         (fst (add_model (sample_model_clock 1700000000123)
                 (sample_db (sample_card 6 2500) (sample_note sample_qa) [])
                 "Custom Model" ["Question"; "Answer"] sample_templates))
         1 ["Q2"; "A2"] [])
  = Return (note_time_ms sample_note_clock).
Proof.
  apply (add_model_then_add_note (sample_model_clock 1700000000123)
           sample_note_clock
           (sample_db (sample_card 6 2500) (sample_note sample_qa) [])
           "Custom Model" ["Question"; "Answer"] sample_templates
           1 ["Q2"; "A2"] []).
  - discriminate.
  - intros i j H. unfold sample_note_clock, card_time_ms. lia.
  - unfold sample_note_clock, card_time_ms. lia.
  - unfold sample_db, sample_card, db_cards, map, c_id. repeat constructor. intros [].
  - intros c [<-|[]]. unfold sample_note_clock, card_time_ms, sample_card, c_id. lia.
Defined.

(** ** The archives of the two exporters *)

Lemma int_of_str (z : Z) :
  NilZero.int_of_string (Py.str z) = Some (Z.to_int z).
Proof.
  unfold Py.str. apply NilZero.isi; destruct z; simpl; try discriminate;
    intros [= E]; exact (Unsigned.to_uint_nonnil _ E).
Qed.

(** The text of a number is none of the two fixed file names. *)
Lemma str_not_name (z : Z) : Py.str z <> "collection.anki2" /\ Py.str z <> "media".
Proof.
  split; intros E; pose proof (int_of_str z) as H; rewrite E in H; discriminate H.
Qed.

Lemma dict_get_app_r {V : Type} (k : string) (d d' : dict V) :
  ~ In k (dict_keys d) -> dict_get k (d ++ d')%list = dict_get k d'.
Proof.
  unfold dict_get, dict_keys. induction d as [|[k' v'] d IH]; simpl; [reflexivity|].
  intros H. destruct (String.eqb k' k) eqn:E.
  - apply String.eqb_eq in E. exfalso. auto.
  - apply IH. auto.
Qed.

Lemma dict_get_map {X V : Type} (key : X -> string) (val : X -> V) (xs : list X)
    (x : X) :
  NoDup (map key xs) -> In x xs ->
  dict_get (key x) (map (fun y => (key y, val y)) xs) = Some (val x).
Proof.
  unfold dict_get. induction xs as [|a xs IH]; simpl; [contradiction|].
  intros Hnd [H|H].
  - subst a. rewrite String.eqb_refl. reflexivity.
  - inversion Hnd as [|? ? Hnotin Hnd']; subst.
    destruct (String.eqb (key a) (key x)) eqn:E.
    + apply String.eqb_eq in E. exfalso. apply Hnotin. rewrite E.
      apply in_map. exact H.
    + apply IH; assumption.
Qed.

(** Assignments under new, distinct keys append to the document. *)
Lemma dict_set_all_fresh {X V : Type} (key : X -> string) (val : X -> V)
    (xs : list X) :
  forall d : dict V,
    NoDup (map key xs) ->
    (forall x, In x xs -> ~ In (key x) (dict_keys d)) ->
    fold_left (fun m x => dict_set (key x) (val x) m) xs d
    = (d ++ map (fun x => (key x, val x)) xs)%list.
Proof.
  induction xs as [|a xs IH]; intros d Hnd Hfresh; simpl.
  - rewrite app_nil_r. reflexivity.
  - inversion Hnd as [|? ? Hnotin Hnd']; subst.
    rewrite dict_set_fresh by (apply dict_get_None; apply Hfresh; left; reflexivity).
    rewrite IH; [rewrite <- app_assoc; reflexivity|exact Hnd'|].
    intros x Hx Hin. unfold dict_keys in Hin. rewrite map_app in Hin.
    apply in_app_or in Hin. destruct Hin as [Hin|Hin].
    + apply (Hfresh x (or_intror Hx)). exact Hin.
    + cbn in Hin. destruct Hin as [E|[]]. apply Hnotin. rewrite E.
      apply in_map. exact Hx.
Qed.

Lemma zip_write_all_map {X : Type} (dir : directory) (key : X -> string)
    (val : X -> content) (xs : list X) :
  forall z : archive,
    (forall x, In x xs -> dict_get (key x) dir = Some (val x)) ->
    zip_write_all dir (map key xs) z
    = Done (z ++ map (fun x => (key x, val x)) xs)%list.
Proof.
  induction xs as [|a xs IH]; intros z H; simpl.
  - rewrite app_nil_r. reflexivity.
  - unfold zip_write. rewrite (H a (or_introl eq_refl)).
    rewrite IH by (intros x Hx; apply H; right; exact Hx).
    rewrite <- app_assoc. reflexivity.
Qed.

Lemma enumerate_from_index {A : Type} (l : list A) :
  forall k i x, In (i, x) (enumerate_from k l) -> k <= i.
Proof.
  induction l as [|a l IH]; intros k i x; simpl; [contradiction|].
  intros [[= <- <-]|H]; [lia|]. apply IH in H. lia.
Qed.

Lemma enumerate_from_keys {A : Type} (l : list A) :
  forall k, NoDup (map (fun ix : Z * A => Py.str (fst ix)) (enumerate_from k l)).
Proof.
  induction l as [|a l IH]; intros k; simpl; constructor; [|apply IH].
  intros Hin. apply in_map_iff in Hin. destruct Hin as ([i x] & E & Hin).
  cbn in E. apply str_inj in E. subst i.
  apply enumerate_from_index in Hin. lia.
Qed.

(** X16: the archive of [export_apkg], for every database and every list of
    media files: the collection, the manifest and one entry for each media
    file, in this order and each name once; the manifest maps the position
    of a file to its name, and the entry named by the position holds the
    file's data. No file is missing when the archive is written. *)
Theorem export_apkg_entries (media_files : list (string * string)) (d : db) :
  exists z,
    export_apkg media_files d = Done z /\
    z = ("collection.anki2", Collection d)
        :: ("media",
            Manifest (map (fun ifd => (Py.str (fst ifd), fst (snd ifd)))
                          (enumerate media_files)))
        :: map (fun ifd => (Py.str (fst ifd), Blob (snd (snd ifd))))
               (enumerate media_files) /\
    NoDup (map fst z) /\
    List.length z = (2 + List.length media_files)%nat.
Proof.
  pose proof (enumerate_from_keys media_files 0) as Hkeys.
  fold (enumerate media_files) in Hkeys.
  assert (Hman : media_manifest media_files
                 = map (fun ifd => (Py.str (fst ifd), fst (snd ifd)))
                       (enumerate media_files)).
  { unfold media_manifest.
    rewrite (dict_set_all_fresh (fun ifd : Z * (string * string) => Py.str (fst ifd))
               (fun ifd => fst (snd ifd)) _ [] Hkeys); [reflexivity|].
    intros x _ []. }
  set (dir0 := [("collection.anki2", Collection d);
                ("media", Manifest (media_manifest media_files))]).
  assert (Hstage : stage_media media_files dir0
                   = (dir0 ++ map (fun ifd => (Py.str (fst ifd), Blob (snd (snd ifd))))
                                  (enumerate media_files))%list).
  { unfold stage_media.
    apply (dict_set_all_fresh (fun ifd : Z * (string * string) => Py.str (fst ifd))
             (fun ifd => Blob (snd (snd ifd))) _ dir0 Hkeys).
    intros x _ Hin. destruct (str_not_name (fst x)) as [H1 H2].
    cbn in Hin. destruct Hin as [E|[E|[]]]; auto. }
  eexists. split; [|split; [reflexivity|]].
  - unfold export_apkg. change (dict_set "media" _ (dict_set "collection.anki2" _ []))
      with dir0.
    rewrite Hstage. unfold zip_write.
    assert (G1 : forall st, dict_get "collection.anki2" (dir0 ++ st)%list
                            = Some (Collection d)) by reflexivity.
    assert (G2 : forall st, dict_get "media" (dir0 ++ st)%list
                            = Some (Manifest (media_manifest media_files)))
      by reflexivity.
    rewrite G1, G2.
    cbn [app].
    rewrite (zip_write_all_map _ (fun ifd : Z * (string * string) => Py.str (fst ifd))
               (fun ifd => Blob (snd (snd ifd)))).
    + rewrite Hman. reflexivity.
    + intros x Hx. rewrite dict_get_app_r.
      * apply (dict_get_map (fun ifd : Z * (string * string) => Py.str (fst ifd))
                 (fun ifd => Blob (snd (snd ifd)))); assumption.
      * destruct (str_not_name (fst x)) as [H1 H2].
        cbn. intros [E|[E|[]]]; auto.
  - split.
    + cbn [map fst]. rewrite map_map. cbn [fst].
      constructor.
      * intros [E|Hin]; [discriminate|].
        apply in_map_iff in Hin. destruct Hin as (x & E & _).
        destruct (str_not_name (fst x)) as [H1 H2]. auto.
      * constructor; [|exact Hkeys].
        intros Hin. apply in_map_iff in Hin. destruct Hin as (x & E & _).
        destruct (str_not_name (fst x)) as [H1 H2]. auto.
    + cbn [List.length]. rewrite length_map. unfold enumerate.
      rewrite enumerate_from_length. reflexivity.
Qed.

Lemma dict_set_NoDup {V : Type} (k : string) (v : V) (d : dict V) :
  NoDup (dict_keys d) -> NoDup (dict_keys (dict_set k v d)).
Proof.
  unfold dict_keys. induction d as [|[k' v'] d IH]; simpl; intros Hnd.
  - repeat constructor. intros [].
  - inversion Hnd as [|? ? Hnotin Hnd']; subst.
    destruct (String.eqb k' k) eqn:E; simpl.
    + apply String.eqb_eq in E. subst k'. constructor; assumption.
    + constructor; [|apply IH; exact Hnd'].
      intros Hin. apply Hnotin.
      clear - Hin E. induction d as [|[k0 v0] d IH]; simpl in *.
      * destruct Hin as [H|[]]. subst k. rewrite String.eqb_refl in E. discriminate.
      * destruct (String.eqb k0 k) eqn:E0; simpl in Hin.
        -- apply String.eqb_eq in E0. subst k0. destruct Hin as [H|H]; auto.
        -- destruct Hin as [H|H]; auto.
Qed.

Lemma extract_media_NoDup (rows : list media_row) (dir : directory)
    (m : dict string) :
  NoDup (dict_keys dir) -> NoDup (dict_keys (fst (extract_media rows dir m))).
Proof.
  unfold extract_media. revert dir m.
  induction rows as [|r rows IH]; intros dir m Hnd; simpl; [exact Hnd|].
  destruct (truthy (md_data r) && truthy (md_filename r)).
  - apply IH. simpl. apply dict_set_NoDup. exact Hnd.
  - apply IH. exact Hnd.
Qed.

Lemma count_occ_once (l : list string) (x : string) :
  NoDup l -> In x l -> count_occ string_dec l x = 1%nat.
Proof.
  intros Hnd. apply NoDup_count_occ'; assumption.
Qed.

(** X17: [export_to_apkg] writes the collection file and the manifest
    first, and then every file of the staging directory, which holds these
    two as well: for every database and every order of the directory
    listing the archive has exactly two entries named [collection.anki2]
    and exactly two named [media]. *)
Theorem export_to_apkg_writes_twice (listdir : directory -> list string) (d : db) :
  (forall dir, Permutation (listdir dir) (dict_keys dir)) ->
  exists z,
    export_to_apkg listdir d = Done z /\
    count_occ string_dec (map fst z) "collection.anki2" = 2%nat /\
    count_occ string_dec (map fst z) "media" = 2%nat /\
    (4 <= List.length z)%nat.
Proof.
  intros Hperm. unfold export_to_apkg.
  set (dir0 := dict_set "media" (Manifest []) (dict_set "collection.anki2" (Collection d) [])).
  assert (H0 : In "collection.anki2" (dict_keys dir0) /\ In "media" (dict_keys dir0) /\
               NoDup (dict_keys dir0)).
  { cbn. repeat split; auto. repeat constructor; cbn; intuition discriminate. }
  set (st := match db_media d with
             | Some rows => extract_media rows dir0 []
             | None => (dir0, [])
             end).
  assert (H1 : In "collection.anki2" (dict_keys (fst st)) /\ In "media" (dict_keys (fst st))
               /\ NoDup (dict_keys (fst st))).
  { subst st. destruct (db_media d) as [rows|]; [|exact H0].
    repeat split; [apply extract_media_keys|apply extract_media_keys
                  |apply extract_media_NoDup]; apply H0. }
  destruct st as [dir1 media_dict]. cbn [fst] in H1.
  set (dir := dict_set "media" (Manifest media_dict) dir1).
  assert (H2 : In "collection.anki2" (dict_keys dir) /\ In "media" (dict_keys dir) /\
               NoDup (dict_keys dir)).
  { repeat split; [apply dict_set_keys_keep; apply H1 | apply dict_set_keys_new
                  | apply dict_set_NoDup; apply H1]. }
  destruct H2 as (Hc & Hm & Hnd).
  destruct (dict_get_In _ _ Hc) as (c1 & Hc1).
  destruct (dict_get_In _ _ Hm) as (c2 & Hc2).
  unfold zip_write at 1. rewrite Hc1. unfold zip_write at 1. rewrite Hc2.
  destruct (zip_write_all_names dir (listdir dir)
              ([] ++ [("collection.anki2", c1)] ++ [("media", c2)])%list)
    as (z & Hz & Hn).
  { intros n Hn. eapply Permutation_in; [apply Hperm|exact Hn]. }
  exists z. split; [exact Hz|].
  assert (Hnd' : NoDup (listdir dir)).
  { eapply Permutation_NoDup; [apply Permutation_sym; apply Hperm|exact Hnd]. }
  assert (Hc' : In "collection.anki2" (listdir dir)).
  { eapply Permutation_in; [apply Permutation_sym; apply Hperm|exact Hc]. }
  assert (Hm' : In "media" (listdir dir)).
  { eapply Permutation_in; [apply Permutation_sym; apply Hperm|exact Hm]. }
  assert (Hlen : List.length z = (2 + List.length (listdir dir))%nat).
  { rewrite <- (length_map fst z), Hn. cbn. reflexivity. }
  rewrite Hn. cbn [map fst app]. split; [|split].
  - rewrite count_occ_cons_eq by reflexivity.
    rewrite count_occ_cons_neq by discriminate.
    rewrite (count_occ_once _ _ Hnd' Hc'). reflexivity.
  - rewrite count_occ_cons_neq by discriminate.
    rewrite count_occ_cons_eq by reflexivity.
    rewrite (count_occ_once _ _ Hnd' Hm'). reflexivity.
  - rewrite Hlen.
    destruct (listdir dir) as [|a [|b l]]; cbn; try lia.
    + destruct Hc'.
    + destruct Hc' as [E1|[]]. destruct Hm' as [E2|[]].
      rewrite E1 in E2. discriminate E2.
Qed.

Lemma export_to_apkg_writes_twice_witness :
  exists z,
    export_to_apkg dict_keys sample_media_db = Done z /\
    count_occ string_dec (map fst z) "collection.anki2" = 2%nat.
Proof.
  destruct (export_to_apkg_writes_twice dict_keys sample_media_db
              (fun dir => Permutation_refl _)) as (z & H1 & H2 & _).
  exists z. split; assumption.
Defined.

(** ** The review endpoint of the server *)

Lemma SFltb_leb (a b : spec_float) : SFltb a b = true -> SFleb a b = true.
Proof.
  unfold SFltb, SFleb. destruct (SFcompare a b) as [[ | | ]|]; auto.
Qed.

(** [max(1.3, x)] is at least 1.3 for every float, a NaN and the infinities
    included. *)
Lemma max_floor (x : spec_float) : SFleb Py.f1_3 (Py.max Py.f1_3 x) = true.
Proof.
  unfold Py.max, Py.fgt. destruct (SFltb Py.f1_3 x) eqn:E.
  - apply SFltb_leb. exact E.
  - reflexivity.
Qed.

Lemma calculate_next_review_floor (pc : plain_card) (difficulty interval : Z)
    (e : Py.float) :
  calculate_next_review pc difficulty = Ok (interval, e) ->
  SFleb Py.f1_3 e = true /\ (difficulty < 3 -> interval = 1).
Proof.
  unfold calculate_next_review. destruct (difficulty <? 3) eqn:Hd.
  - intros [= <- <-]. split; [apply max_floor|reflexivity].
  - apply Z.ltb_ge in Hd.
    destruct (if pc_repetitions pc =? 0 then Ok 1
              else if pc_repetitions pc =? 1 then Ok 6
              else let* i := Py.to_float (pc_interval pc) in
                   Py.round (Py.fmul i (pc_ease_factor pc))) as [i|x];
      cbn [bind]; [|discriminate].
    destruct (pass_ease (pc_ease_factor pc) difficulty) as [e0|x]; cbn [bind];
      [|discriminate].
    intros [= <- <-]. split; [apply max_floor|lia].
Qed.



(** X19: a review that the server answers with status 200 counts as a
    repetition whatever the difficulty: the row of the card has its
    repetition count raised by one (the reset to 0 that
    [calculate_next_review] computes at a difficulty below 3 is not
    stored), an ease factor of at least 1.3, the time of day of the
    request in its due date, and front and back as before; at a difficulty
    below 3 the interval is 1 and the card is due the next day. The other
    rows, and the order of the rows, stay as they are. *)
Theorem process_review_counts (now : Z * Z) (cards : list server_card)
    (card_id difficulty : Z) :
  fst (process_review now cards card_id difficulty) = Status200 ->
  Forall2
    (fun r r' =>
       if sc_id r =? card_id then
         sc_id r' = sc_id r /\ sc_front r' = sc_front r /\ sc_back r' = sc_back r /\
         sc_repetitions r' = sc_repetitions r + 1 /\
         SFleb Py.f1_3 (sc_ease_factor r') = true /\
         snd (sc_due_date r') = snd now /\
         (difficulty < 3 ->
          sc_interval r' = 1 /\ fst (sc_due_date r') = fst now + 1)
       else r' = r)
    cards (snd (process_review now cards card_id difficulty)) /\
  exists r, In r cards /\ sc_id r = card_id.
Proof.
  unfold process_review.
  destruct (find (fun c => sc_id c =? card_id) cards) as [c|] eqn:Hfind;
    [|discriminate].
  destruct (calculate_next_review _ difficulty) as [[interval e]|x] eqn:Hcalc;
    [|discriminate].
  destruct (plus_days (fst now) interval) as [day|x] eqn:Hday; [|discriminate].
  intros _. cbn [snd].
  destruct (calculate_next_review_floor _ _ _ _ Hcalc) as [He Hi].
  split.
  - assert (Hd : difficulty < 3 -> interval = 1 /\ day = fst now + 1).
    { intros H. specialize (Hi H). subst interval. split; [reflexivity|].
      unfold plus_days in Hday.
      destruct (_ && _) in Hday; [|discriminate]. congruence. }
    clear Hfind Hcalc Hday. induction cards as [|r cards IH]; cbn [map];
      constructor; [|exact IH].
    destruct (sc_id r =? card_id); [|reflexivity].
    cbn. repeat split; try assumption; apply Hd; assumption.
  - apply find_some in Hfind. destruct Hfind as [Hin Hid].
    exists c. split; [exact Hin|apply Z.eqb_eq; exact Hid].
Qed.

Lemma process_review_counts_witness :
  fst (process_review (19675, 36000) [sample_server_card] 7 1) = Status200 /\
  exists r, In r [sample_server_card] /\ sc_id r = 7.
Proof.
  split; [reflexivity|].
  exact (proj2 (process_review_counts (19675, 36000) [sample_server_card] 7 1
                  eq_refl)).
Defined.



(** ** A review session *)

Lemma read_quality_range (lines : list (option Z)) (q : Z) (rest : list (option Z)) :
  read_quality lines = Some (q, rest) -> 0 <= q <= 5.
Proof.
  induction lines as [|[z|] lines IH]; simpl; [discriminate| |exact IH].
  destruct ((0 <=? z) && (z <=? 5)) eqn:E; [|exact IH].
  intros [= <- <-]. apply andb_true_iff in E. destruct E as [E1 E2].
  apply Z.leb_le in E1, E2. lia.
Qed.

(** A review that returns has found the card, computed a schedule, updated
    the card rows and appended one log row. *)
Lemma apply_returns (clk : clock) (d : db) (cid q : Z) (r : next_review) :
  fst (apply_sm2_algorithm clk d cid q) = Ok r ->
  exists c s,
    0 <= q <= 5 /\ select_card cid (db_cards d) = Some c /\ sm2 clk c q = Ok s /\
    db_notes (snd (apply_sm2_algorithm clk d cid q)) = db_notes d /\
    db_cards (snd (apply_sm2_algorithm clk d cid q))
    = update_cards clk s cid (db_cards d) /\
    db_revlog (snd (apply_sm2_algorithm clk d cid q))
    = (db_revlog d ++ [log_entry clk cid q (c_ivl c) s])%list.
Proof.
  intros H.
  destruct (Z_lt_le_dec q 0) as [H0|H0];
    [rewrite apply_invalid in H by auto; discriminate|].
  destruct (Z_lt_le_dec 5 q) as [H5|H5];
    [rewrite apply_invalid in H by auto; discriminate|].
  destruct (select_card cid (db_cards d)) as [c|] eqn:Hsel;
    [|rewrite apply_invalid in H by auto; discriminate].
  destruct (sm2 clk c q) as [s|x] eqn:Hs.
  - exists c, s. split; [lia|]. split; [reflexivity|]. split; [exact Hs|].
    rewrite (apply_scheduled clk d cid q c s ltac:(lia) Hsel Hs) in H |- *.
    destruct (existsb _ (db_revlog d)); [discriminate|].
    destruct (new_queue s =? 1); [repeat split|].
    destruct ((-719162 <=? due s) && (due s <=? 2932896)); [repeat split|discriminate].
  - unfold apply_sm2_algorithm in H.
    assert (Hr : ((q <? 0) || (q >? 5)) = false).
    { apply orb_false_iff. split; [apply Z.ltb_ge; lia|].
      rewrite Z.gtb_ltb. apply Z.ltb_ge; lia. }
    rewrite Hr, Hsel, Hs in H. discriminate.
Qed.

(** The schedule of a review of a card within range keeps the card off the
    due list of every day up to today. *)
Lemma schedule_not_due (clk : clock) (c x : card) (q as_of : Z) (s : schedule) :
  0 <= q <= 5 -> card_small c -> as_of <= today clk -> sm2 clk c q = Ok s ->
  card_is_due as_of (update_card clk s x) = false.
Proof.
  intros Hq Hsm Hday Hs. pose proof (card_small_wf c Hsm) as Hwf.
  unfold card_is_due. cbn [c_queue c_due update_card].
  destruct (Z_lt_le_dec q 3) as [Hlt|Hge].
  - destruct (sm2_fail clk c q Hlt (proj1 Hwf)) as (z & _ & _ & Hs').
    rewrite Hs in Hs'. injection Hs' as ->. reflexivity.
  - destruct (sm2_pass_growth clk c q ltac:(lia) Hwf ltac:(unfold card_small in Hsm; lia))
      as (s' & Hs' & Hnq & Hdue & _ & H1 & _).
    rewrite Hs in Hs'. injection Hs' as <-. rewrite Hnq, Hdue. cbn.
    apply Z.leb_gt. lia.
Qed.

Lemma Forall2_In_r {A B : Type} (R : A -> B -> Prop) (l : list A) (l' : list B)
    (y : B) :
  Forall2 R l l' -> In y l' -> exists x, In x l /\ R x y.
Proof.
  induction 1 as [|a b l l' Hab _ IH]; simpl; [contradiction|].
  intros [<-|H]; [eauto|]. destruct (IH H) as (x & Hx & Hr). eauto.
Qed.

Lemma Forall2_In_l {A B : Type} (R : A -> B -> Prop) (l : list A) (l' : list B)
    (x : A) :
  Forall2 R l l' -> In x l -> exists y, In y l' /\ R x y.
Proof.
  induction 1 as [|a b l l' Hab _ IH]; simpl; [contradiction|].
  intros [<-|H]; [eauto|]. destruct (IH H) as (y & Hy & Hr). eauto.
Qed.

Lemma reviewed_start (as_of : Z) (cs : list card) :
  Forall2 (reviewed as_of []) cs cs.
Proof.
  induction cs; constructor; auto. repeat split; auto. intros [].
Qed.

(** One more review keeps the relation to the rows of the start. *)
Lemma reviewed_step (as_of : Z) (clk : clock) (s : schedule) (cid : Z)
    (done : list Z) (cs0 cs : list card) :
  (forall x, card_is_due as_of (update_card clk s x) = false) ->
  Forall2 (reviewed as_of done) cs0 cs ->
  Forall2 (reviewed as_of (done ++ [cid])) cs0 (update_cards clk s cid cs).
Proof.
  intros Hs. induction 1 as [|c c' cs0 cs (Hid & Hnid & Hdone & Hrest) _ IH];
    cbn [update_cards map]; constructor; [|exact IH].
  destruct (c_id c' =? cid) eqn:E.
  - apply Z.eqb_eq in E. repeat split; try assumption.
    + intros _. apply Hs.
    + intros Hn. exfalso. apply Hn. apply in_or_app. right. left. congruence.
  - apply Z.eqb_neq in E. repeat split; try assumption.
    + intros Hin. apply in_app_or in Hin. destruct Hin as [Hin|[Hin|[]]]; [auto|].
      congruence.
    + intros Hn. apply Hrest. intros Hin. apply Hn. apply in_or_app. auto.
Qed.

Lemma review_cards_completed (as_of : Z) (clks : nat -> clock) (d0 : db) :
  Forall card_small (db_cards d0) ->
  (forall i, as_of <= today (clks i)) ->
  forall (cards : list due_card) (round : nat) (lines : list (option Z))
         (d d' : db) (done : list Z),
    NoDup (done ++ map dc_id cards) ->
    db_notes d = db_notes d0 ->
    Forall2 (reviewed as_of done) (db_cards d0) (db_cards d) ->
    review_cards clks round lines d cards = (Completed, d') ->
    db_notes d' = db_notes d0 /\
    Forall2 (reviewed as_of (done ++ map dc_id cards)) (db_cards d0) (db_cards d') /\
    List.length (db_revlog d')
    = (List.length (db_revlog d) + List.length cards)%nat.
Proof.
  intros Hsmall Hday.
  induction cards as [|card cards IH]; intros round lines d d' done Hnd Hnotes Hrel; simpl.
  - intros [= <-]. rewrite app_nil_r. repeat split; auto.
  - destruct lines as [|l lines1]; [discriminate|].
    destruct (read_quality lines1) as [[q lines2]|] eqn:Hread; [|discriminate].
    apply read_quality_range in Hread.
    destruct (apply_sm2_algorithm (clks round) d (dc_id card) q) as [[r|e] d1] eqn:Happ;
      [|discriminate].
    intros Hrun.
    destruct (apply_returns (clks round) d (dc_id card) q r) as
      (c & s & _ & Hsel & Hs & Hn1 & Hc1 & Hl1); [rewrite Happ; reflexivity|].
    rewrite Happ in Hn1, Hc1, Hl1. cbn [snd] in Hn1, Hc1, Hl1.
    assert (Hfresh : ~ In (dc_id card) done).
    { intros Hin. apply NoDup_remove_2 in Hnd. apply Hnd. apply in_or_app. auto. }
    assert (Hc : In c (db_cards d0)).
    { pose proof (select_card_id _ _ _ Hsel) as Hid.
      unfold select_card in Hsel. apply find_some in Hsel. destruct Hsel as [Hin _].
      destruct (Forall2_In_r _ _ _ _ Hrel Hin) as (c0 & Hin0 & Hid0 & _ & _ & Hsame).
      rewrite (Hsame ltac:(congruence)). exact Hin0. }
    rewrite Forall_forall in Hsmall.
    pose proof (fun x => schedule_not_due (clks round) c x q as_of s Hread
                           (Hsmall c Hc) (Hday round) Hs) as Hoff.
    pose proof (reviewed_step as_of (clks round) s (dc_id card) done _ _ Hoff Hrel)
      as Hrel1.
    rewrite <- Hc1 in Hrel1.
    destruct (IH (S round) lines2 d1 d' (done ++ [dc_id card])%list) as (G1 & G2 & G3).
    + rewrite <- app_assoc. exact Hnd.
    + congruence.
    + exact Hrel1.
    + exact Hrun.
    + split; [exact G1|]. split.
      * rewrite <- app_assoc in G2. exact G2.
      * rewrite G3, Hl1, length_app. cbn. lia.
Qed.

Lemma filter_at_most_one (k : Z) (ns : list note) :
  NoDup (map n_id ns) ->
  (List.length (filter (fun n => (k =? n_id n)%Z) ns) <= 1)%nat.
Proof.
  intros Hnd. destruct (filter (fun n => k =? n_id n) ns) as [|n l] eqn:E;
    [simpl; lia|].
  assert (Hin : In n (filter (fun n => k =? n_id n) ns)) by (rewrite E; left; auto).
  apply filter_In in Hin. destruct Hin as [Hin Hk]. apply Z.eqb_eq in Hk.
  rewrite (filter_unique_note k ns n Hnd Hin (eq_sym Hk)) in E.
  injection E as <-. simpl. lia.
Qed.

(** The rows of the due list come from card rows, in the order of the
    table. *)
Lemma due_ids_of_cards (as_of : Z) (ns : list note) (cs : list card) (x : Z) :
  In x (map dc_id
          (flat_map
             (fun row =>
                let parts := Str.split sep (snd row) in
                if 2 <=? Z.of_nat (List.length parts)
                then [{| dc_id := fst row;
                         dc_question := nth 0 parts "";
                         dc_answer := nth 1 parts "" |}]
                else [])
             (flat_map
                (fun c0 =>
                   if card_is_due as_of c0
                   then map (fun n => (c_id c0, n_flds n))
                            (filter (fun n => c_nid c0 =? n_id n) ns)
                   else [])
                cs))) ->
  In x (map c_id cs).
Proof.
  intros Hx. apply in_map_iff in Hx. destruct Hx as (r & <- & Hr).
  apply in_flat_map in Hr. destruct Hr as (row & Hrow & Hr).
  apply in_flat_map in Hrow. destruct Hrow as (c0 & Hc0 & Hrow).
  destruct (card_is_due as_of c0); [|contradiction].
  apply in_map_iff in Hrow. destruct Hrow as (n & <- & _).
  cbn [fst snd] in Hr.
  destruct (2 <=? _) in Hr; [|contradiction].
  destruct Hr as [<-|[]]. cbn. apply in_map. exact Hc0.
Qed.

(** With the primary keys of [cards] and [notes], no card is on the due
    list twice. *)
Lemma due_list_NoDup (as_of : Z) (d : db) :
  NoDup (map c_id (db_cards d)) -> NoDup (map n_id (db_notes d)) ->
  NoDup (map dc_id (get_cards_due_today as_of d)).
Proof.
  intros Hc Hn. unfold get_cards_due_today, select_due.
  induction (db_cards d) as [|c cs IH]; simpl; [constructor|].
  inversion Hc as [|? ? Hnotin Hc']; subst.
  rewrite flat_map_app, map_app.
  pose proof (due_ids_of_cards as_of (db_notes d) cs) as Htail.
  destruct (card_is_due as_of c); [|cbn; apply IH; exact Hc'].
  pose proof (filter_at_most_one (c_nid c) (db_notes d) Hn) as Hone.
  destruct (filter (fun n => c_nid c =? n_id n) (db_notes d)) as [|n [|n' l]];
    [cbn; apply IH; exact Hc'| |simpl in Hone; lia].
  cbn [map flat_map app fst snd].
  destruct (2 <=? _); [|cbn; apply IH; exact Hc'].
  cbn [map app dc_id]. constructor; [|apply IH; exact Hc'].
  intros Hin. apply Hnotin. apply Htail. exact Hin.
Qed.

(** X21: a review session that runs to its end leaves no card due: when
    every card of the table has an interval and a factor from 0 to 2^31,
    and no review of the session reads an earlier day than the day of the
    due list, then the due list of that day is empty afterwards; the notes
    are as before, and the log has one new row for every card that was
    due. *)
Theorem session_clears_due_list (as_of : Z) (clks : nat -> clock)
    (lines : list (option Z)) (d d' : db) :
  NoDup (map c_id (db_cards d)) -> NoDup (map n_id (db_notes d)) ->
  Forall card_small (db_cards d) ->
  (forall i, as_of <= today (clks i)) ->
  run_review_session as_of clks lines d = (Completed, d') ->
  get_cards_due_today as_of d' = [] /\
  db_notes d' = db_notes d /\
  List.length (db_revlog d')
  = (List.length (db_revlog d) + List.length (get_cards_due_today as_of d))%nat.
Proof.
  intros Hc Hn Hsmall Hday Hrun. unfold run_review_session in Hrun.
  destruct (review_cards_completed as_of clks d Hsmall Hday
              (get_cards_due_today as_of d) 0%nat lines d d' [])
    as (Hnotes & Hrel & Hlog).
  - cbn. apply due_list_NoDup; assumption.
  - reflexivity.
  - apply reviewed_start.
  - exact Hrun.
  - split; [|split; assumption].
    destruct (get_cards_due_today as_of d') as [|r l] eqn:E; [reflexivity|].
    exfalso.
    assert (Hr : In r (get_cards_due_today as_of d')) by (rewrite E; left; auto).
    apply due_cards_iff in Hr.
    destruct Hr as (c' & n & Hc' & Hn' & Hjoin & Hdue & Hlen & _).
    destruct (Forall2_In_r _ _ _ _ Hrel Hc') as (c & Hin & Hid & Hnid & Hdone & Hsame).
    cbn [app] in Hdone, Hsame.
    destruct (in_dec Z.eq_dec (c_id c) (map dc_id (get_cards_due_today as_of d)))
      as [Hyes|Hno].
    + rewrite (Hdone Hyes) in Hdue. discriminate.
    + apply Hno. specialize (Hsame Hno). subst c'.
      apply in_map_iff.
      exists {| dc_id := c_id c;
                dc_question := nth 0 (Str.split sep (n_flds n)) "";
                dc_answer := nth 1 (Str.split sep (n_flds n)) "" |}.
      split; [reflexivity|]. apply due_cards_iff.
      exists c, n. rewrite Hnotes in Hn'. repeat split; assumption.
Qed.

Lemma session_clears_due_list_witness :
  get_cards_due_today 19675
    (snd (run_review_session 19675 (fun _ => sample_clock)
            [None; Some 7; None; Some 4]
            (sample_db (sample_card 6 2500) (sample_note sample_qa) [])))
  = [].
Proof.
  refine (proj1 (session_clears_due_list 19675 (fun _ => sample_clock)
                   [None; Some 7; None; Some 4]
                   (sample_db (sample_card 6 2500) (sample_note sample_qa) [])
                   _ _ _ _ _ _)).
  - unfold sample_db, sample_card, db_cards, map, c_id. repeat constructor. intros [].
  - unfold sample_db, sample_note, db_notes, map, n_id. repeat constructor. intros [].
  - repeat constructor; unfold card_small, sample_card, c_ivl, c_factor; lia.
  - intros _. unfold sample_clock, today. lia.
  - vm_compute. reflexivity.
Defined.
